(** * WebSocketHelper: connection lifecycle and message relay

    A shallow embedding of [src/WebSokcetHelper.ts].  The class is a record
    of its fields together with the objects its closures reach (the sockets
    it created, the promises [connect] returned, the rxjs subscribers made
    by [initPublish]); every method and every event handler is a function
    on that record.  What leaves the class (payloads handed to subscriber
    callbacks, strings handed to a socket) is appended to a log.

    Conventions of the model:
    - JavaScript runs one handler at a time: a method call or a socket event
      is a function from the state before it to the state after it.
    - [JSON.parse] and [JSON.stringify] are parameters; [new WebSocket(url)]
      is taken to return a handle for every [url]; [console.log] is left
      out.
    - A subscriber callback only observes: it does not call back into the
      helper.
    - Socket events are not restricted to the orders a real socket can
      produce; what is proved of every run holds of the real ones. *)

From Stdlib Require Import ZArith String Ascii.
From stdpp Require Import base list strings pretty.
From Equations Require Import Equations.
From Equations.Prop Require Logic.

Set Warnings "-register-all".
Local Open Scope string_scope.

(** ** JavaScript values *)

(** The values that travel through the helper: what [JSON.parse] returns,
    what a subscriber receives and what [send] accepts.  Numbers are kept
    to the integers. *)
Inductive JSValue :=
| JUndefined
| JNull
| JBool (b : bool)
| JNum (n : Z)
| JBigInt (n : Z)
| JStr (s : string)
| JArr (items : list JSValue)
| JObj (fields : list (string * JSValue))
| JBlob (bytes : list Byte.byte).

(** [MessageEvent.data]: a text frame or a binary frame (a [Blob] under the
    default [binaryType]). *)
Inductive WsData :=
| DText (s : string)
| DBinary (bytes : list Byte.byte).

(** Truthiness of a buffered payload, as tested by the drain loop: the only
    falsy string is the empty one, objects are truthy. *)
Definition truthy (d : WsData) : bool :=
  match d with
  | DText s => negb (String.eqb s "")
  | DBinary _ => true
  end.

(** String coercion applied by [JSON.parse] to its argument. *)
Definition ToString (d : WsData) : string :=
  match d with
  | DText s => s
  | DBinary _ => "[object Blob]"
  end.

(** The value a payload stands for when it is passed through undecoded. *)
Definition raw_value (d : WsData) : JSValue :=
  match d with
  | DText s => JStr s
  | DBinary b => JBlob b
  end.

(** Result of [JSON.stringify]: a string, [undefined] (for [undefined],
    functions and symbols), or a thrown [TypeError]. *)
Inductive Stringified :=
| SOk (s : string)
| SUndefined
| SThrows.

(** Exceptions that can leave a method of the helper. *)
Inductive Thrown :=
| TypeError_null_publisher
| SyntaxError_JSON (text : string)
| Error_invalid_message (message : JSValue).

Inductive Completion :=
| Normal
| Throw (e : Thrown).

(** ** rxjs Subject *)

Inductive Notification :=
| Next (v : JSValue)
| Complete.

(** A subscriber callback is opaque: it is known by a name, and the
    notifications sent to it are logged. *)
Definition Callback := nat.

Record Subject := mkSubject {
  subject_id : nat;
  observers : list (nat * Callback);
  isStopped : bool
}.

Inductive Subscription :=
| EMPTY_SUBSCRIPTION
| SubjectSubscription (subject key : nat).

(** ** WebSocket handles *)

Inductive ReadyState := CONNECTING | OPEN | CLOSING | CLOSED.

(** The two closures ever stored in [onerror]: [() => resolve(false)] from
    [connect], and [observer.complete.bind(observer)] from [initPublish]. *)
Inductive OnError :=
| OnError_resolve_false (promise : nat)
| OnError_observer_complete (observer : nat).

(** [onopen] holds the closure of [connect] (named by its promise);
    [onmessage] and [onclose] hold [observer.next] and [observer.complete]
    of a subscriber made by [initPublish] (named by the subscriber). *)
Record WebSocket := mkWebSocket {
  ws_url : string;
  readyState : ReadyState;
  onopen : option nat;
  onmessage : option nat;
  onclose : option nat;
  onerror : option OnError
}.

Record WebSocketOptions := mkOptions {
  autoReconnect : option bool;
  reconnectLimits : option Z
}.

(** ** The helper *)

Record Helper := mkHelper {
  (* fields of the class *)
  status : bool;
  ws : option nat;
  publisher : option Subject;
  listeners : list Subscription;
  url : string;
  options : WebSocketOptions;
  cacheMessages : list WsData;
  (* objects reached from closures *)
  sockets : list WebSocket;
  promises : list (option bool);
  subscribers : list bool;
  fresh : nat;
  (* what was observed from outside *)
  delivered : list (Callback * Notification);
  transmitted : list (nat * string);
  reconnect_calls : list (option Z)
}.

Definition default_options : WebSocketOptions :=
  {| autoReconnect := Some true; reconnectLimits := Some 5%Z |}.

(** [new WebSocketHelper()] *)
Definition new_helper : Helper :=
  {| status := false; ws := None; publisher := None; listeners := [];
     url := ""; options := default_options; cacheMessages := [];
     sockets := []; promises := []; subscribers := []; fresh := 0;
     delivered := []; transmitted := []; reconnect_calls := [] |}.

Definition set_status (b : bool) (h : Helper) : Helper :=
  {| status := b; ws := ws h; publisher := publisher h; listeners := listeners h;
     url := url h; options := options h; cacheMessages := cacheMessages h;
     sockets := sockets h; promises := promises h; subscribers := subscribers h;
     fresh := fresh h; delivered := delivered h; transmitted := transmitted h;
     reconnect_calls := reconnect_calls h |}.

Definition set_ws (w : option nat) (h : Helper) : Helper :=
  {| status := status h; ws := w; publisher := publisher h; listeners := listeners h;
     url := url h; options := options h; cacheMessages := cacheMessages h;
     sockets := sockets h; promises := promises h; subscribers := subscribers h;
     fresh := fresh h; delivered := delivered h; transmitted := transmitted h;
     reconnect_calls := reconnect_calls h |}.

Definition set_publisher (p : option Subject) (h : Helper) : Helper :=
  {| status := status h; ws := ws h; publisher := p; listeners := listeners h;
     url := url h; options := options h; cacheMessages := cacheMessages h;
     sockets := sockets h; promises := promises h; subscribers := subscribers h;
     fresh := fresh h; delivered := delivered h; transmitted := transmitted h;
     reconnect_calls := reconnect_calls h |}.

Definition set_listeners (l : list Subscription) (h : Helper) : Helper :=
  {| status := status h; ws := ws h; publisher := publisher h; listeners := l;
     url := url h; options := options h; cacheMessages := cacheMessages h;
     sockets := sockets h; promises := promises h; subscribers := subscribers h;
     fresh := fresh h; delivered := delivered h; transmitted := transmitted h;
     reconnect_calls := reconnect_calls h |}.

Definition set_url (u : string) (h : Helper) : Helper :=
  {| status := status h; ws := ws h; publisher := publisher h; listeners := listeners h;
     url := u; options := options h; cacheMessages := cacheMessages h;
     sockets := sockets h; promises := promises h; subscribers := subscribers h;
     fresh := fresh h; delivered := delivered h; transmitted := transmitted h;
     reconnect_calls := reconnect_calls h |}.

Definition set_options (o : WebSocketOptions) (h : Helper) : Helper :=
  {| status := status h; ws := ws h; publisher := publisher h; listeners := listeners h;
     url := url h; options := o; cacheMessages := cacheMessages h;
     sockets := sockets h; promises := promises h; subscribers := subscribers h;
     fresh := fresh h; delivered := delivered h; transmitted := transmitted h;
     reconnect_calls := reconnect_calls h |}.

Definition set_cacheMessages (c : list WsData) (h : Helper) : Helper :=
  {| status := status h; ws := ws h; publisher := publisher h; listeners := listeners h;
     url := url h; options := options h; cacheMessages := c;
     sockets := sockets h; promises := promises h; subscribers := subscribers h;
     fresh := fresh h; delivered := delivered h; transmitted := transmitted h;
     reconnect_calls := reconnect_calls h |}.

Definition set_sockets (l : list WebSocket) (h : Helper) : Helper :=
  {| status := status h; ws := ws h; publisher := publisher h; listeners := listeners h;
     url := url h; options := options h; cacheMessages := cacheMessages h;
     sockets := l; promises := promises h; subscribers := subscribers h;
     fresh := fresh h; delivered := delivered h; transmitted := transmitted h;
     reconnect_calls := reconnect_calls h |}.

Definition set_promises (l : list (option bool)) (h : Helper) : Helper :=
  {| status := status h; ws := ws h; publisher := publisher h; listeners := listeners h;
     url := url h; options := options h; cacheMessages := cacheMessages h;
     sockets := sockets h; promises := l; subscribers := subscribers h;
     fresh := fresh h; delivered := delivered h; transmitted := transmitted h;
     reconnect_calls := reconnect_calls h |}.

Definition set_subscribers (l : list bool) (h : Helper) : Helper :=
  {| status := status h; ws := ws h; publisher := publisher h; listeners := listeners h;
     url := url h; options := options h; cacheMessages := cacheMessages h;
     sockets := sockets h; promises := promises h; subscribers := l;
     fresh := fresh h; delivered := delivered h; transmitted := transmitted h;
     reconnect_calls := reconnect_calls h |}.

Definition set_fresh (n : nat) (h : Helper) : Helper :=
  {| status := status h; ws := ws h; publisher := publisher h; listeners := listeners h;
     url := url h; options := options h; cacheMessages := cacheMessages h;
     sockets := sockets h; promises := promises h; subscribers := subscribers h;
     fresh := n; delivered := delivered h; transmitted := transmitted h;
     reconnect_calls := reconnect_calls h |}.

Definition log_delivered (l : list (Callback * Notification)) (h : Helper) : Helper :=
  {| status := status h; ws := ws h; publisher := publisher h; listeners := listeners h;
     url := url h; options := options h; cacheMessages := cacheMessages h;
     sockets := sockets h; promises := promises h; subscribers := subscribers h;
     fresh := fresh h; delivered := delivered h ++ l; transmitted := transmitted h;
     reconnect_calls := reconnect_calls h |}.

Definition log_transmitted (id : nat) (text : string) (h : Helper) : Helper :=
  {| status := status h; ws := ws h; publisher := publisher h; listeners := listeners h;
     url := url h; options := options h; cacheMessages := cacheMessages h;
     sockets := sockets h; promises := promises h; subscribers := subscribers h;
     fresh := fresh h; delivered := delivered h; transmitted := transmitted h ++ [(id, text)];
     reconnect_calls := reconnect_calls h |}.

Definition log_reconnect (limits : option Z) (h : Helper) : Helper :=
  {| status := status h; ws := ws h; publisher := publisher h; listeners := listeners h;
     url := url h; options := options h; cacheMessages := cacheMessages h;
     sockets := sockets h; promises := promises h; subscribers := subscribers h;
     fresh := fresh h; delivered := delivered h; transmitted := transmitted h;
     reconnect_calls := reconnect_calls h ++ [limits] |}.

(** ** rxjs primitives *)

(** [subject.next(v)]: every registered observer, in registration order. *)
Definition Subject_next (p : Subject) (v : JSValue) : list (Callback * Notification) :=
  if isStopped p then [] else map (fun o => (snd o, Next v)) (observers p).

(** [subject.complete()]: notifies the observers once and drops them. *)
Definition Subject_complete (p : Subject) : Subject * list (Callback * Notification) :=
  if isStopped p then (p, [])
  else (mkSubject (subject_id p) [] true, map (fun o => (snd o, Complete)) (observers p)).

(** [subject.subscribe(callback)] on the subject [p] held in [publisher]: a
    completed subject only signals completion and hands back the empty
    subscription. *)
Definition Subject_subscribe (p : Subject) (cb : Callback) (h : Helper) : Subscription * Helper :=
  if isStopped p then (EMPTY_SUBSCRIPTION, log_delivered [(cb, Complete)] h)
  else (SubjectSubscription (subject_id p) (fresh h),
        set_fresh (S (fresh h))
          (set_publisher (Some (mkSubject (subject_id p) (observers p ++ [(fresh h, cb)]) false)) h)).

(** [subscription.unsubscribe()]: removes the observer from its subject.  A
    subject that is no longer held in [publisher] is out of the helper's
    reach, so only the current one is tracked. *)
Definition Subscription_unsubscribe (sub : Subscription) (h : Helper) : Helper :=
  match sub, publisher h with
  | SubjectSubscription sid key, Some p =>
      if Nat.eqb sid (subject_id p)
      then set_publisher
             (Some (mkSubject (subject_id p)
                      (filter (fun o => fst o <> key) (observers p)) (isStopped p))) h
      else h
  | _, _ => h
  end.

(** [array.pop()]: the last element ([None] for [undefined]) and the array
    that is left. *)
Definition pop {A} (l : list A) : option A * list A := (last l, removelast l).

(** Settling a promise: only the first [resolve] counts. *)
Definition resolve (p : nat) (b : bool) (h : Helper) : Helper :=
  match promises h !! p with
  | Some None => set_promises (<[p := Some b]> (promises h)) h
  | _ => h
  end.

Definition set_readyState (r : ReadyState) (w : WebSocket) : WebSocket :=
  mkWebSocket (ws_url w) r (onopen w) (onmessage w) (onclose w) (onerror w).

(** The three assignments made by the function given to [new Observable]. *)
Definition wire (o : nat) (w : WebSocket) : WebSocket :=
  mkWebSocket (ws_url w) (readyState w) (onopen w)
    (Some o) (Some o) (Some (OnError_observer_complete o)).

Definition stop_subscriber (o : nat) (h : Helper) : Helper :=
  set_subscribers (<[o := true]> (subscribers h)) h.

(** ** A reference instance of the platform's JSON functions

    The theorems below hold for every [JSON_parse] and [JSON_stringify].  To
    run the model on concrete payloads, this module implements both on a
    fragment of JSON: the literals, integers, strings without escapes or
    control characters, arrays and objects.  A text that is not JSON at all
    (such as [hello], or the empty text) is rejected as [JSON.parse] rejects
    it; fractions, exponents and escapes are outside the fragment and are
    not used. *)

Module JSONFragment.

Definition dquote : ascii := "034"%char.
Definition backslash : ascii := "092"%char.

Definition is_ws (c : ascii) : bool :=
  let n := nat_of_ascii c in
  Nat.eqb n 32 || Nat.eqb n 9 || Nat.eqb n 10 || Nat.eqb n 13.

Definition digit_of (c : ascii) : option Z :=
  let n := nat_of_ascii c in
  if Nat.leb 48 n && Nat.leb n 57 then Some (Z.of_nat (n - 48)) else None.

Fixpoint skip_ws (s : string) : string :=
  match s with
  | String c r => if is_ws c then skip_ws r else s
  | EmptyString => s
  end.

(** [expect lit s]: what follows [lit] at the head of [s]. *)
Fixpoint expect (lit s : string) : option string :=
  match lit, s with
  | EmptyString, _ => Some s
  | String a lit', String b s' => if Ascii.eqb a b then expect lit' s' else None
  | String _ _, EmptyString => None
  end.

Fixpoint digits (acc : Z) (s : string) : Z * string :=
  match s with
  | String c r =>
      match digit_of c with
      | Some d => digits (10 * acc + d) r
      | None => (acc, s)
      end
  | EmptyString => (acc, s)
  end.

(** An unsigned integer: [0], or a digit other than [0] and more digits. *)
Definition number (s : string) : option (Z * string) :=
  match s with
  | String c r =>
      match digit_of c with
      | Some 0%Z => Some (0%Z, r)
      | Some d => Some (digits d r)
      | None => None
      end
  | EmptyString => None
  end.

(** The characters of a string up to its closing quote; escapes and control
    characters end the parse. *)
Fixpoint string_body (s : string) : option (string * string) :=
  match s with
  | EmptyString => None
  | String c r =>
      if Ascii.eqb c dquote then Some (EmptyString, r)
      else if Ascii.eqb c backslash then None
      else if Nat.ltb (nat_of_ascii c) 32 then None
      else match string_body r with
           | Some (t, r') => Some (String c t, r')
           | None => None
           end
  end.

(** Setting a property: a name already present keeps its place. *)
Fixpoint put (k : string) (v : JSValue) (fields : list (string * JSValue)) :=
  match fields with
  | [] => [(k, v)]
  | (k', v') :: rest =>
      if String.eqb k k' then (k', v) :: rest else (k', v') :: put k v rest
  end.

Fixpoint value (fuel : nat) (s : string) {struct fuel} : option (JSValue * string) :=
  match fuel with
  | 0 => None
  | S fuel =>
      match skip_ws s with
      | EmptyString => None
      | String c r =>
          if Ascii.eqb c "n" then option_map (pair JNull) (expect "ull" r)
          else if Ascii.eqb c "t" then option_map (pair (JBool true)) (expect "rue" r)
          else if Ascii.eqb c "f" then option_map (pair (JBool false)) (expect "alse" r)
          else if Ascii.eqb c dquote then
            match string_body r with
            | Some (t, r') => Some (JStr t, r')
            | None => None
            end
          else if Ascii.eqb c "[" then
            match skip_ws r with
            | String c' r' =>
                if Ascii.eqb c' "]" then Some (JArr [], r') else elements fuel r []
            | EmptyString => None
            end
          else if Ascii.eqb c "{" then
            match skip_ws r with
            | String c' r' =>
                if Ascii.eqb c' "}" then Some (JObj [], r') else members fuel r []
            | EmptyString => None
            end
          else if Ascii.eqb c "-" then
            match number r with
            | Some (n, r') => Some (JNum (- n), r')
            | None => None
            end
          else
            match number (String c r) with
            | Some (n, r') => Some (JNum n, r')
            | None => None
            end
      end
  end
with elements (fuel : nat) (s : string) (acc : list JSValue) {struct fuel}
  : option (JSValue * string) :=
  match fuel with
  | 0 => None
  | S fuel =>
      match value fuel s with
      | None => None
      | Some (v, r) =>
          match skip_ws r with
          | String c r' =>
              if Ascii.eqb c "," then elements fuel r' (acc ++ [v])%list
              else if Ascii.eqb c "]" then Some (JArr (acc ++ [v])%list, r')
              else None
          | EmptyString => None
          end
      end
  end
with members (fuel : nat) (s : string) (acc : list (string * JSValue)) {struct fuel}
  : option (JSValue * string) :=
  match fuel with
  | 0 => None
  | S fuel =>
      match skip_ws s with
      | String q r =>
          if Ascii.eqb q dquote then
            match string_body r with
            | None => None
            | Some (k, r1) =>
                match skip_ws r1 with
                | String colon r2 =>
                    if Ascii.eqb colon ":" then
                      match value fuel r2 with
                      | None => None
                      | Some (v, r3) =>
                          match skip_ws r3 with
                          | String c r' =>
                              if Ascii.eqb c "," then members fuel r' (put k v acc)
                              else if Ascii.eqb c "}" then Some (JObj (put k v acc), r')
                              else None
                          | EmptyString => None
                          end
                      end
                    else None
                | EmptyString => None
                end
            end
          else None
      | EmptyString => None
      end
  end.

(** [JSON.parse] on the fragment: one value, then nothing but white space. *)
Definition parse (text : string) : option JSValue :=
  match value (2 * String.length text + 2) text with
  | Some (v, r) =>
      match skip_ws r with
      | EmptyString => Some v
      | String _ _ => None
      end
  | None => None
  end.

Fixpoint escape (s : string) : string :=
  match s with
  | EmptyString => EmptyString
  | String c r =>
      if Ascii.eqb c dquote || Ascii.eqb c backslash
      then String backslash (String c (escape r))
      else String c (escape r)
  end.

Definition quote (s : string) : string :=
  String dquote (escape s ++ String dquote EmptyString).

Fixpoint join (parts : list string) : string :=
  match parts with
  | [] => EmptyString
  | [x] => x
  | x :: rest => x ++ "," ++ join rest
  end.

(** The serialisation of a value inside an array or an object: [None] when
    it throws (a BigInt somewhere inside), [Some None] for [undefined]. *)
Fixpoint serialize (v : JSValue) : option (option string) :=
  match v with
  | JUndefined => Some None
  | JNull => Some (Some "null")
  | JBool true => Some (Some "true")
  | JBool false => Some (Some "false")
  | JNum n => Some (Some (pretty n))
  | JBigInt _ => None
  | JStr s => Some (Some (quote s))
  | JArr items =>
      (fix go (l : list JSValue) (acc : list string) : option (option string) :=
         match l with
         | [] => Some (Some ("[" ++ join acc ++ "]"))
         | x :: l' =>
             match serialize x with
             | None => None
             | Some None => go l' (acc ++ ["null"])%list
             | Some (Some t) => go l' (acc ++ [t])%list
             end
         end) items []
  | JObj fields =>
      (fix go (l : list (string * JSValue)) (acc : list string) : option (option string) :=
         match l with
         | [] => Some (Some ("{" ++ join acc ++ "}"))
         | (k, x) :: l' =>
             match serialize x with
             | None => None
             | Some None => go l' acc
             | Some (Some t) => go l' (acc ++ [(quote k ++ ":" ++ t)%string])%list
             end
         end) fields []
  | JBlob _ => Some (Some "{}")
  end.

(** [JSON.stringify] on the fragment. *)
Definition stringify (v : JSValue) : Stringified :=
  match serialize v with
  | None => SThrows
  | Some None => SUndefined
  | Some (Some t) => SOk t
  end.

End JSONFragment.

Section Helper.

(** The platform's [JSON.parse] ([None] when it throws [SyntaxError]) and
    [JSON.stringify]. *)
Variable JSON_parse : string -> option JSValue.
Variable JSON_stringify : JSValue -> Stringified.

(** *** [initPublish]: the three handlers *)

(** [next: ({ data }) => ...] *)
Definition on_next (data : WsData) (h : Helper) : Helper :=
  let message :=
    match data with
    | DText text =>
        match JSON_parse text with
        | Some v => v
        | None => raw_value data
        end
    | DBinary _ => raw_value data
    end in
  match listeners h with
  | [] => set_cacheMessages (cacheMessages h ++ [data]) h
  | _ :: _ =>
      match publisher h with
      | Some p => log_delivered (Subject_next p message) h
      | None => h
      end
  end.

(** [error: () => ...]; the call of [reconnect] is recorded, the loop it
    starts is [reconnect] below. *)
Definition on_error (h : Helper) : Helper :=
  match autoReconnect (options h) with
  | Some true => log_reconnect (reconnectLimits (options h)) h
  | _ => h
  end.

(** [complete: () => ...]; with no publisher the handler faults on its
    second line and rxjs reports that out of band. *)
Definition on_complete (h : Helper) : Helper :=
  let h1 := set_status false h in
  match publisher h1 with
  | None => h1
  | Some p =>
      let '(p', notes) := Subject_complete p in
      let h2 := log_delivered notes (set_publisher (Some p') h1) in
      let h3 := fold_left (fun acc item => Subscription_unsubscribe item acc) (listeners h2) h2 in
      set_listeners [] h3
  end.

(** The subscriber rxjs wraps around the three handlers: deaf once stopped,
    stopped by [error] and by [complete]. *)
Definition observer_next (o : nat) (data : WsData) (h : Helper) : Helper :=
  match subscribers h !! o with
  | Some false => on_next data h
  | _ => h
  end.

Definition observer_error (o : nat) (h : Helper) : Helper :=
  match subscribers h !! o with
  | Some false => on_error (stop_subscriber o h)
  | _ => h
  end.

Definition observer_complete (o : nat) (h : Helper) : Helper :=
  match subscribers h !! o with
  | Some false => on_complete (stop_subscriber o h)
  | _ => h
  end.

(** [initPublish()].  The handlers are put on [this.ws], whichever socket
    that is when the function runs; were [this.ws] null, the fault inside
    the Observable's function would be routed by rxjs to [error]. *)
Definition initPublish (h : Helper) : Helper :=
  let h1 := set_fresh (S (fresh h)) (set_publisher (Some (mkSubject (fresh h) [] false)) h) in
  let o := length (subscribers h1) in
  let h2 := set_subscribers (subscribers h1 ++ [false]) h1 in
  match ws h2 with
  | Some id => set_sockets (alter (wire o) id (sockets h2)) h2
  | None => observer_error o h2
  end.

(** *** [connect] *)

(** [connect(url, options?)]: returns the promise; the socket starts in
    [CONNECTING] with the two closures of the executor. *)
Definition connect (u : string) (opts : option WebSocketOptions) (h : Helper) : nat * Helper :=
  let h1 := set_options (match opts with Some o => o | None => options h end) (set_url u h) in
  let p := length (promises h1) in
  let id := length (sockets h1) in
  let h2 := set_promises (promises h1 ++ [None]) h1 in
  let h3 := set_ws (Some id) (set_sockets (sockets h2 ++ [mkWebSocket u CONNECTING None None None None]) h2) in
  let h4 := set_sockets (alter (fun w => mkWebSocket (ws_url w) (readyState w) (Some p)
                                          (onmessage w) (onclose w) (onerror w)) id (sockets h3)) h3 in
  let h5 := set_sockets (alter (fun w => mkWebSocket (ws_url w) (readyState w) (onopen w)
                                          (onmessage w) (onclose w)
                                          (Some (OnError_resolve_false p))) id (sockets h4)) h4 in
  (p, h5).

(** [this.ws.onopen = () => { ... }] *)
Definition connect_onopen (p : nat) (h : Helper) : Helper :=
  resolve p true (initPublish (set_status true h)).

(** *** Transport events *)

Inductive WsEvent :=
| EvOpen
| EvMessage (data : WsData)
| EvError
| EvClose.

(** The socket [id] fires an event: its [readyState] moves and the handler
    stored in the matching slot, if any, runs. *)
Definition ws_event (id : nat) (ev : WsEvent) (h : Helper) : Helper :=
  match sockets h !! id with
  | None => h
  | Some w =>
      match ev with
      | EvOpen =>
          let h1 := set_sockets (alter (set_readyState OPEN) id (sockets h)) h in
          match onopen w with
          | Some p => connect_onopen p h1
          | None => h1
          end
      | EvMessage data =>
          match onmessage w with
          | Some o => observer_next o data h
          | None => h
          end
      | EvError =>
          let h1 := set_sockets (alter (set_readyState CLOSED) id (sockets h)) h in
          match onerror w with
          | Some (OnError_resolve_false p) => resolve p false h1
          | Some (OnError_observer_complete o) => observer_complete o h1
          | None => h1
          end
      | EvClose =>
          let h1 := set_sockets (alter (set_readyState CLOSED) id (sockets h)) h in
          match onclose w with
          | Some o => observer_complete o h1
          | None => h1
          end
      end
  end.

(** *** [send] and [close] *)

(** [send(message)].  On an open socket [ws.send] of a string does not
    throw, so only [JSON.stringify] can reach the [catch];
    [ws.send(undefined)] transmits the text [undefined]. *)
Definition send (message : JSValue) (h : Helper) : Completion * Helper :=
  match ws h with
  | None => (Normal, h)
  | Some id =>
      match sockets h !! id with
      | None => (Normal, h)
      | Some w =>
          match readyState w with
          | OPEN =>
              let sendMessage :=
                match message with
                | JStr s => SOk s
                | _ => JSON_stringify message
                end in
              match sendMessage with
              | SOk text => (Normal, log_transmitted id text h)
              | SUndefined => (Normal, log_transmitted id "undefined" h)
              | SThrows => (Throw (Error_invalid_message message), h)
              end
          | _ => (Normal, h)
          end
      end
  end.

(** [close()]: [this.ws?.close()] starts the closing handshake; the close
    event comes later from the transport. *)
Definition close (h : Helper) : Helper :=
  match ws h with
  | None => h
  | Some id =>
      set_sockets
        (alter (fun w => match readyState w with
                         | CONNECTING | OPEN => set_readyState CLOSING w
                         | _ => w
                         end) id (sockets h)) h
  end.

(** *** [subscribe] and the drain of the buffer *)

(** The loop of [clearCacheMessages]:
    [while (cacheMessage = this.cacheMessages.pop()) { ... }]. *)
Equations(noind) clear_loop (h : Helper) : Completion * Helper
  by wf (length (cacheMessages h)) lt :=
clear_loop h with Logic.inspect (pop (cacheMessages h)) := {
  | exist _ (None, _) _ := (Normal, h);
  | exist _ (Some cacheMessage, rest) E :=
      let h1 := set_cacheMessages rest h in
      if truthy cacheMessage then
        match publisher h1 with
        | None => (Throw TypeError_null_publisher, h1)
        | Some p =>
            match JSON_parse (ToString cacheMessage) with
            | None => (Throw (SyntaxError_JSON (ToString cacheMessage)), h1)
            | Some v => clear_loop (log_delivered (Subject_next p v) h1)
            end
        end
      else (Normal, h1) }.
Next Obligation.
  simpl. revert H0. generalize (cacheMessages h). intros l.
  destruct l as [|x l _] using rev_ind; [discriminate|]. intros _.
  rewrite removelast_last, length_app. simpl. lia.
Qed.

(** [clearCacheMessages()] *)
Definition clearCacheMessages (h : Helper) : Completion * Helper :=
  match cacheMessages h with
  | [] => (Normal, h)
  | _ :: _ => clear_loop h
  end.

(** [subscribe(callback)]: an exception in the drain leaves before
    [this.listeners.push(listen)]. *)
Definition subscribe (callback : Callback) (h : Helper) : Completion * Helper :=
  match publisher h with
  | None => (Throw TypeError_null_publisher, h)
  | Some p =>
      let '(listen, h1) := Subject_subscribe p callback h in
      match clearCacheMessages h1 with
      | (Normal, h2) => (Normal, set_listeners (listeners h2 ++ [listen]) h2)
      | (Throw e, h2) => (Throw e, h2)
      end
  end.

(** *** [reconnect] *)

Section Reconnect.

(** What the transport does with each socket it is asked to open, by socket
    number: [true] when the socket opens, [false] when it reports an error
    instead. *)
Variable transport_opens : nat -> bool.

(** [await this.connect(this.url)]: the call, then the first event of the new
    socket; [None] when the promise is still pending after it. *)
Definition await_connect (h : Helper) : option bool * Helper :=
  let '(p, h1) := connect (url h) None h in
  let id := length (sockets h) in
  let h2 := ws_event id (if transport_opens id then EvOpen else EvError) h1 in
  (mjoin (promises h2 !! p), h2).

Opaque await_connect.

(** [while (!await this.connect(this.url) && reconnectTime < limits)
    reconnectTime++]; returns the final [reconnectTime].  A promise left
    pending would suspend the loop for good. *)
Equations(noind) reconnect_loop (limits reconnectTime : Z) (h : Helper) : Z * Helper
  by wf (Z.to_nat (limits - reconnectTime)) lt :=
reconnect_loop limits reconnectTime h with await_connect h := {
  | (None, h') := (reconnectTime, h');
  | (Some true, h') := (reconnectTime, h');
  | (Some false, h') with Z_lt_dec reconnectTime limits := {
      | left _ := reconnect_loop limits (reconnectTime + 1) h';
      | right _ := (reconnectTime, h') } }.
Next Obligation. lia. Qed.
Transparent await_connect.

(** [reconnect(limits = 5)] *)
Definition reconnect (limits : option Z) (h : Helper) : Z * Helper :=
  if String.eqb (url h) "" then (0%Z, h)
  else reconnect_loop (default 5%Z limits) 0 h.

End Reconnect.

(** *** Runs of the helper *)

(** What can happen to a helper: a call of one of its four public methods,
    or an event of one of its sockets. *)
Inductive Action :=
| Connect (u : string) (opts : option WebSocketOptions)
| Send (message : JSValue)
| Close
| Subscribe (callback : Callback)
| Transport (id : nat) (ev : WsEvent).

Definition step (a : Action) (h : Helper) : Helper :=
  match a with
  | Connect u opts => snd (connect u opts h)
  | Send message => snd (send message h)
  | Close => close h
  | Subscribe callback => snd (subscribe callback h)
  | Transport id ev => ws_event id ev h
  end.

Definition run (actions : list Action) (h : Helper) : Helper :=
  fold_left (fun acc a => step a acc) actions h.

(** The payloads [payloads] arrive on socket [id], in this order. *)
Definition receive (id : nat) (payloads : list WsData) (h : Helper) : Helper :=
  fold_left (fun acc data => ws_event id (EvMessage data) acc) payloads h.

Local Open Scope list_scope.

(** ** Vocabulary of the properties *)

(** A buffered payload that the loop delivers: truthy and accepted by
    [JSON.parse], which gives [v]. *)
Definition decodes (d : WsData) (v : JSValue) : Prop :=
  truthy d = true /\ JSON_parse (ToString d) = Some v.

(** The helper once [publisher.subscribe(callback)] has registered the
    callback on the live subject [p]. *)
Definition registered (callback : Callback) (p : Subject) (h : Helper) : Helper :=
  set_fresh (S (fresh h))
    (set_publisher
       (Some (mkSubject (subject_id p) (observers p ++ [(fresh h, callback)]) false)) h).

(** A socket whose [onmessage] is the [next] of a subscriber that has not
    stopped. *)
Definition relays (id : nat) (h : Helper) : Prop :=
  exists w o, sockets h !! id = Some w /\ onmessage w = Some o /\
              subscribers h !! o = Some false.

(** A new helper, [connect(u)], and the socket opens. *)
Definition opened (u : string) : Helper :=
  run [Connect u None; Transport 0 EvOpen] new_helper.

(** [typeof message === 'string'] *)
Definition is_string (message : JSValue) : bool :=
  match message with
  | JStr _ => true
  | _ => false
  end.

(** What the drain and the relay leave alone: every field but the buffer
    and the log of deliveries. *)
Definition same_frame (h h' : Helper) : Prop :=
  status h' = status h /\ ws h' = ws h /\ publisher h' = publisher h /\
  listeners h' = listeners h /\ url h' = url h /\ options h' = options h /\
  sockets h' = sockets h /\ promises h' = promises h /\
  subscribers h' = subscribers h /\ fresh h' = fresh h /\
  transmitted h' = transmitted h /\ reconnect_calls h' = reconnect_calls h.

(** The part of the helper that the relay's teardown and the promises do
    not touch. *)
Definition same_wiring (h h' : Helper) : Prop :=
  ws h' = ws h /\ sockets h' = sockets h /\ subscribers h' = subscribers h /\
  reconnect_calls h' = reconnect_calls h /\ url h' = url h /\ options h' = options h.

(** [this.ws] names one of the sockets made so far, and is null only as
    long as none was made. *)
Definition wired (h : Helper) : Prop :=
  match ws h with
  | Some id => id < length (sockets h)
  | None => length (sockets h) = 0
  end.

(** What every run keeps true: a live publisher while [status] is true, no
    call of [reconnect], and [this.ws] naming a socket. *)
Definition relay_inv (h : Helper) : Prop :=
  (status h = true -> exists p, publisher h = Some p /\ isStopped p = false) /\
  reconnect_calls h = [] /\
  wired h.

(** The claim C5 as the specification states it. *)
Definition publisher_iff_status (h : Helper) : Prop :=
  (status h = true -> publisher h <> None) /\
  (status h = false -> publisher h = None).

(** The claim C6 as the specification states it: with no connection up,
    [subscribe] raises an error to its caller. *)
Definition subscribe_without_connection_raises : Prop :=
  forall (actions : list Action) (callback : Callback),
    status (run actions new_helper) = false ->
    exists e, fst (subscribe callback (run actions new_helper)) = Throw e.

(** The claim C10 as the specification states it: the drain stops at a
    buffered empty string, and that empty string stays in the buffer
    together with what was buffered before it. *)
Definition drain_leaves_empty_string : Prop :=
  forall (h : Helper) (p : Subject) (callback : Callback)
         (pre post : list WsData) (vs : list JSValue),
    publisher h = Some p -> isStopped p = false ->
    cacheMessages h = pre ++ [DText ""] ++ post ->
    Forall2 decodes post vs ->
    cacheMessages (snd (subscribe callback h)) = pre ++ [DText ""].

(** [this.ws] is the socket made last: [send] and [close] reach no other. *)
Definition ws_is_latest (h : Helper) : Prop :=
  match ws h with
  | Some id => S id = length (sockets h)
  | None => length (sockets h) = 0
  end.

(** * Properties *)

(** ** Bookkeeping on the record *)

Lemma log_delivered_app (a b : list (Callback * Notification)) (h : Helper) :
  log_delivered b (log_delivered a h) = log_delivered (a ++ b) h.
Proof. unfold log_delivered; simpl. by rewrite app_assoc. Qed.

Lemma log_delivered_nil (h : Helper) : log_delivered [] h = h.
Proof. destruct h; unfold log_delivered; simpl. by rewrite app_nil_r. Qed.

Lemma set_cacheMessages_id (h : Helper) : set_cacheMessages (cacheMessages h) h = h.
Proof. by destruct h. Qed.

Lemma set_cacheMessages_log (c c' : list WsData) a (h : Helper) :
  set_cacheMessages c (log_delivered a (set_cacheMessages c' h)) =
  log_delivered a (set_cacheMessages c h).
Proof. reflexivity. Qed.

Lemma flat_map_singleton {A B} (g : A -> B) (l : list A) :
  flat_map (fun v => [g v]) l = map g l.
Proof. induction l as [|x l IH]; [done|]. cbn. by rewrite IH. Qed.

Lemma pop_snoc {A} (l : list A) (x : A) : pop (l ++ [x]) = (Some x, l).
Proof. unfold pop. by rewrite last_snoc, removelast_last. Qed.

Lemma same_frame_refl h : same_frame h h.
Proof. by repeat split. Qed.

Lemma same_frame_trans h1 h2 h3 :
  same_frame h1 h2 -> same_frame h2 h3 -> same_frame h1 h3.
Proof. unfold same_frame. intros H12 H23. intuition congruence. Qed.

(** ** The drain loop, one iteration at a time *)

Lemma clear_loop_eq (h : Helper) :
  clear_loop h =
  match pop (cacheMessages h) with
  | (None, _) => (Normal, h)
  | (Some cacheMessage, rest) =>
      let h1 := set_cacheMessages rest h in
      if truthy cacheMessage then
        match publisher h1 with
        | None => (Throw TypeError_null_publisher, h1)
        | Some p =>
            match JSON_parse (ToString cacheMessage) with
            | None => (Throw (SyntaxError_JSON (ToString cacheMessage)), h1)
            | Some v => clear_loop (log_delivered (Subject_next p v) h1)
            end
        end
      else (Normal, h1)
  end.
Proof.
  rewrite clear_loop_equation_1.
  destruct (Logic.inspect (pop (cacheMessages h))) as [[[m|] rest] E]; simpl;
    unfold pop in E; injection E as El Er; rewrite El; [by subst rest|done].
Qed.

Lemma clear_loop_empty (h : Helper) :
  cacheMessages h = [] -> clear_loop h = (Normal, h).
Proof. intros E. rewrite clear_loop_eq, E. reflexivity. Qed.

Lemma clearCacheMessages_loop (h : Helper) : clearCacheMessages h = clear_loop h.
Proof.
  unfold clearCacheMessages.
  destruct (cacheMessages h) eqn:E; [by rewrite clear_loop_empty|done].
Qed.

(** The loop pops a falsy entry and stops. *)
Lemma clear_loop_falsy (h : Helper) (pre : list WsData) (d : WsData) :
  cacheMessages h = pre ++ [d] -> truthy d = false ->
  clear_loop h = (Normal, set_cacheMessages pre h).
Proof. intros E F. rewrite clear_loop_eq, E, pop_snoc. simpl. by rewrite F. Qed.

(** The loop pops an entry that [JSON.parse] rejects and is left by the
    exception. *)
Lemma clear_loop_throws (h : Helper) (pre : list WsData) (d : WsData) (p : Subject) :
  cacheMessages h = pre ++ [d] -> truthy d = true -> publisher h = Some p ->
  JSON_parse (ToString d) = None ->
  clear_loop h = (Throw (SyntaxError_JSON (ToString d)), set_cacheMessages pre h).
Proof.
  intros E T P N. rewrite clear_loop_eq, E, pop_snoc. simpl. by rewrite T, P, N.
Qed.

(** The loop walks a decodable tail of the buffer from its end, publishing
    each value, and goes on with what is in front of it. *)
Lemma clear_loop_tail (post : list WsData) :
  forall (vs : list JSValue) (h : Helper) (pre : list WsData) (p : Subject),
    cacheMessages h = pre ++ post -> publisher h = Some p ->
    Forall2 decodes post vs ->
    clear_loop h =
    clear_loop (log_delivered (flat_map (Subject_next p) (rev vs))
                  (set_cacheMessages pre h)).
Proof.
  induction post as [|d post IH] using rev_ind; intros vs h pre p E P F.
  - apply Forall2_nil_inv_l in F. subst vs. simpl.
    rewrite app_nil_r in E. by rewrite log_delivered_nil, <- E, set_cacheMessages_id.
  - apply Forall2_app_inv_l in F as (vs' & vd & F' & Fd & ->).
    apply Forall2_cons_inv_l in Fd as (v & vnil & [T D] & Fnil & ->).
    apply Forall2_nil_inv_l in Fnil. subst vnil.
    rewrite clear_loop_eq, E, app_assoc, pop_snoc. simpl. rewrite T, P, D.
    rewrite (IH vs' _ pre p); [|done|done|done].
    rewrite rev_app_distr. simpl.
    by rewrite set_cacheMessages_log, log_delivered_app.
Qed.

(** ** [subscribe] on a live publisher *)

Lemma subscribe_live (h : Helper) (p : Subject) (callback : Callback) :
  publisher h = Some p -> isStopped p = false ->
  subscribe callback h =
  match clear_loop (registered callback p h) with
  | (Normal, h2) =>
      (Normal,
       set_listeners (listeners h2 ++ [SubjectSubscription (subject_id p) (fresh h)]) h2)
  | (Throw e, h2) => (Throw e, h2)
  end.
Proof.
  intros P L. unfold subscribe. rewrite P. unfold Subject_subscribe. rewrite L.
  by rewrite clearCacheMessages_loop.
Qed.

(** Where the buffer holds only decodable payloads, [subscribe] delivers
    all of them, the last one buffered first, to every observer of the
    publisher, empties the buffer and records the subscription. *)
Lemma subscribe_drains_decodable (h : Helper) (p : Subject) (callback : Callback)
    (vs : list JSValue) :
  publisher h = Some p -> isStopped p = false ->
  Forall2 decodes (cacheMessages h) vs ->
  subscribe callback h =
  (Normal,
   set_listeners (listeners h ++ [SubjectSubscription (subject_id p) (fresh h)])
     (log_delivered
        (flat_map (fun v => map (fun o => (snd o, Next v))
                              (observers p ++ [(fresh h, callback)])) (rev vs))
        (set_cacheMessages [] (registered callback p h)))).
Proof.
  intros P L F. rewrite (subscribe_live h p callback P L).
  rewrite (clear_loop_tail (cacheMessages h) vs (registered callback p h) []
             (mkSubject (subject_id p) (observers p ++ [(fresh h, callback)]) false));
    [|done|done|done].
  by rewrite clear_loop_empty.
Qed.

(** ** Buffering while nobody listens *)

Lemma receive_buffers (id : nat) (payloads : list WsData) :
  forall h, relays id h -> listeners h = [] ->
    receive id payloads h = set_cacheMessages (cacheMessages h ++ payloads) h.
Proof.
  induction payloads as [|d payloads IH]; intros h R L; simpl.
  - by rewrite app_nil_r, set_cacheMessages_id.
  - assert (E : ws_event id (EvMessage d) h = set_cacheMessages (cacheMessages h ++ [d]) h).
    { destruct R as (w & o & Hw & Ho & Hs).
      unfold ws_event. rewrite Hw, Ho. unfold observer_next. rewrite Hs.
      unfold on_next. by rewrite L. }
    unfold receive in IH |- *. rewrite E, IH; [|done|done].
    simpl. by rewrite <- app_assoc.
Qed.

(** With a subscription recorded, a payload goes straight to the publisher:
    decoded when [JSON.parse] accepts it, as it came otherwise. *)
Lemma live_delivery (id : nat) (h : Helper) (p : Subject) (text : string) :
  relays id h -> listeners h <> [] -> publisher h = Some p ->
  ws_event id (EvMessage (DText text)) h =
  log_delivered (Subject_next p (default (JStr text) (JSON_parse text))) h.
Proof.
  intros (w & o & Hw & Ho & Hs) L P.
  unfold ws_event. rewrite Hw, Ho. unfold observer_next. rewrite Hs.
  unfold on_next. destruct (listeners h); [done|]. rewrite P.
  by destruct (JSON_parse text).
Qed.

(** ** After a successful connect *)

Lemma opened_eq (u : string) :
  opened u =
  {| status := true; ws := Some 0;
     publisher := Some (mkSubject 0 [] false); listeners := [];
     url := u; options := default_options; cacheMessages := [];
     sockets := [mkWebSocket u OPEN (Some 0) (Some 0) (Some 0)
                   (Some (OnError_observer_complete 0))];
     promises := [Some true]; subscribers := [false]; fresh := 1;
     delivered := []; transmitted := []; reconnect_calls := [] |}.
Proof. vm_compute. reflexivity. Qed.

Lemma opened_relays (u : string) : relays 0 (opened u).
Proof. rewrite opened_eq. by eexists _, 0. Qed.

Lemma opened_listeners (u : string) : listeners (opened u) = [].
Proof. by rewrite opened_eq. Qed.

Lemma receive_opened (u : string) (payloads : list WsData) :
  receive 0 payloads (opened u) = set_cacheMessages payloads (opened u).
Proof.
  rewrite receive_buffers; [|apply opened_relays|apply opened_listeners].
  by rewrite opened_eq.
Qed.

(** After a [subscribe] that drained a decodable buffer, the next payload is
    delivered live, behind the drained ones. *)
Lemma drained_then_live (id : nat) (h : Helper) (p : Subject) (callback : Callback)
    (vs : list JSValue) (live : string) :
  relays id h -> publisher h = Some p -> isStopped p = false ->
  Forall2 decodes (cacheMessages h) vs ->
  let h' := ws_event id (EvMessage (DText live)) (snd (subscribe callback h)) in
  delivered h' =
    delivered h ++
    flat_map (fun v => map (fun o => (snd o, Next v)) (observers p ++ [(fresh h, callback)]))
             (rev vs) ++
    map (fun o => (snd o, Next (default (JStr live) (JSON_parse live))))
        (observers p ++ [(fresh h, callback)]) /\
  cacheMessages h' = [].
Proof.
  intros R P L F. cbv zeta.
  rewrite (subscribe_drains_decodable h p callback vs P L F). cbn [snd].
  rewrite (live_delivery id _
             (mkSubject (subject_id p) (observers p ++ [(fresh h, callback)]) false) live).
  - split; [|reflexivity]. cbn. by rewrite <- app_assoc.
  - destruct R as (w & o & Hw & Ho & Hs). by exists w, o.
  - cbn. by destruct (listeners h).
  - reflexivity.
Qed.

(** X12: payloads that all decode, received before anybody subscribed,
    reach the first subscriber in reverse order of arrival, each decoded on
    its own, and ahead of a payload that arrives afterwards. *)
Lemma buffered_then_live (u : string) (callback : Callback)
    (payloads : list WsData) (vs : list JSValue) (live : string) :
  Forall2 decodes payloads vs ->
  let h := run [Subscribe callback; Transport 0 (EvMessage (DText live))]
               (receive 0 payloads (opened u)) in
  delivered h =
    map (fun v => (callback, Next v)) (rev vs) ++
    [(callback, Next (default (JStr live) (JSON_parse live)))] /\
  cacheMessages h = [].
Proof.
  intros F. cbv [run fold_left step]. rewrite receive_opened.
  destruct (drained_then_live 0 (set_cacheMessages payloads (opened u))
              (mkSubject 0 [] false) callback vs live) as [D C].
  - destruct (opened_relays u) as (w & o & Hw & Ho & Hs). by exists w, o.
  - by rewrite opened_eq.
  - reflexivity.
  - exact F.
  - split; [|exact C]. rewrite D. rewrite opened_eq. cbn.
    by rewrite flat_map_singleton.
Qed.

(** C3 (code defect): a payload that is not JSON, received before anybody
    subscribed, is not passed through at drain time.  [clearCacheMessages]
    calls [JSON.parse] with no [try]: [subscribe] is left by the
    [SyntaxError], the subscriber observes nothing, the payload is gone from
    the buffer and the subscription is not recorded.  The same payload
    arriving after [subscribe] is delivered as the raw string: the [next]
    handler has the [try] that the drain lacks. *)
Theorem buffered_invalid_json_is_thrown (u text : string) (callback : Callback) :
  text <> "" -> JSON_parse text = None ->
  (let r := subscribe callback (receive 0 [DText text] (opened u)) in
   fst r = Throw (SyntaxError_JSON text) /\
   delivered (snd r) = [] /\ cacheMessages (snd r) = [] /\ listeners (snd r) = []) /\
  delivered (run [Subscribe callback; Transport 0 (EvMessage (DText text))] (opened u)) =
    [(callback, Next (JStr text))].
Proof.
  intros Hne Hparse. split.
  - cbv zeta. rewrite receive_opened, opened_eq.
    rewrite (subscribe_live _ (mkSubject 0 [] false) callback); [|reflexivity..].
    rewrite (clear_loop_throws _ [] (DText text) (mkSubject 0 [(1, callback)] false));
      [done|reflexivity| |reflexivity|exact Hparse].
    cbn. by destruct (String.eqb_spec text "").
  - cbv [run fold_left step].
    destruct (drained_then_live 0 (opened u) (mkSubject 0 [] false) callback [] text)
      as [D _].
    + apply opened_relays.
    + by rewrite opened_eq.
    + reflexivity.
    + rewrite opened_eq. constructor.
    + rewrite D, Hparse, opened_eq. reflexivity.
Qed.

(** C10 (amended): the drain loop ends when it pops an empty-string payload.
    That payload is removed from the buffer and not delivered; the payloads
    buffered before it stay in the buffer, undelivered; those buffered after
    it, when they all decode, have been delivered. *)
Theorem drain_stops_at_empty_string (h : Helper) (p : Subject) (callback : Callback)
    (pre post : list WsData) (vs : list JSValue) :
  publisher h = Some p -> isStopped p = false ->
  cacheMessages h = pre ++ [DText ""] ++ post ->
  Forall2 decodes post vs ->
  let r := subscribe callback h in
  fst r = Normal /\
  cacheMessages (snd r) = pre /\
  delivered (snd r) =
    delivered h ++
    flat_map (fun v => map (fun o => (snd o, Next v)) (observers p ++ [(fresh h, callback)]))
             (rev vs).
Proof.
  intros P L E F. simpl. rewrite (subscribe_live h p callback P L).
  rewrite (clear_loop_tail post vs (registered callback p h) (pre ++ [DText ""])
             (mkSubject (subject_id p) (observers p ++ [(fresh h, callback)]) false));
    [|by rewrite <- app_assoc|done|done].
  erewrite clear_loop_falsy with (pre := pre) (d := DText ""); [|done|done].
  done.
Qed.

(** ** [send] *)

(** C9: with the socket open, [send] hands a string to the socket as it
    is, and any other value as [JSON.stringify] gives it; when
    [JSON.stringify] throws, [send] throws the invalid-message error and
    the helper, its log of transmissions included, is as before. *)
Theorem send_when_open (h : Helper) (id : nat) (w : WebSocket) :
  ws h = Some id -> sockets h !! id = Some w -> readyState w = OPEN ->
  (forall s, send (JStr s) h = (Normal, log_transmitted id s h)) /\
  (forall message text,
      is_string message = false -> JSON_stringify message = SOk text ->
      send message h = (Normal, log_transmitted id text h)) /\
  (forall message,
      is_string message = false -> JSON_stringify message = SThrows ->
      send message h = (Throw (Error_invalid_message message), h)).
Proof.
  intros Hws Hw Hopen. unfold send. rewrite Hws, Hw, Hopen.
  split; [done|]. split.
  - intros message text Hs Hj. destruct message; try discriminate Hs; by rewrite Hj.
  - intros message Hs Hj. destruct message; try discriminate Hs; by rewrite Hj.
Qed.

(** With no socket, or a socket that is not open, [send] does nothing. *)
Lemma send_when_not_open (h : Helper) (message : JSValue) :
  (forall id w, ws h = Some id -> sockets h !! id = Some w -> readyState w <> OPEN) ->
  send message h = (Normal, h).
Proof.
  intros H. unfold send. destruct (ws h) as [id|] eqn:Hws; [|done].
  destruct (sockets h !! id) as [w|] eqn:Hw; [|done].
  specialize (H id w eq_refl Hw). by destruct (readyState w).
Qed.

(** ** [reconnect] *)

Section ReconnectProperties.

Variable transport_opens : nat -> bool.

Lemma reconnect_loop_eq (limits reconnectTime : Z) (h : Helper) :
  reconnect_loop transport_opens limits reconnectTime h =
  match await_connect transport_opens h with
  | (Some false, h') =>
      if decide (reconnectTime < limits)%Z
      then reconnect_loop transport_opens limits (reconnectTime + 1) h'
      else (reconnectTime, h')
  | (_, h') => (reconnectTime, h')
  end.
Proof.
  rewrite reconnect_loop_equation_1.
  destruct (await_connect transport_opens h) as [[[|]|] h']; simpl; [done| |done].
  destruct (Z_lt_dec reconnectTime limits); by case_decide.
Qed.

Lemma alter_snoc {A} (f : A -> A) (l : list A) (x : A) :
  alter f (length l) (l ++ [x]) = l ++ [f x].
Proof. by rewrite <- (Nat.add_0_r (length l)), alter_app_r. Qed.

Lemma insert_snoc {A} (l : list A) (x y : A) :
  <[length l := y]> (l ++ [x]) = l ++ [y].
Proof. by rewrite <- (Nat.add_0_r (length l)), insert_app_r. Qed.

Lemma lookup_snoc {A} (l : list A) (x : A) : (l ++ [x]) !! length l = Some x.
Proof. by apply list_lookup_middle. Qed.

(** [connect] spelled out: a new socket in [CONNECTING] at the end of the
    list of sockets, carrying the two closures, and a new pending promise. *)
Lemma connect_eq (u : string) (opts : option WebSocketOptions) (h : Helper) :
  connect u opts h =
  (length (promises h),
   {| status := status h; ws := Some (length (sockets h));
      publisher := publisher h; listeners := listeners h; url := u;
      options := default (options h) opts; cacheMessages := cacheMessages h;
      sockets := sockets h ++
                 [mkWebSocket u CONNECTING (Some (length (promises h))) None None
                    (Some (OnError_resolve_false (length (promises h))))];
      promises := promises h ++ [None]; subscribers := subscribers h;
      fresh := fresh h; delivered := delivered h; transmitted := transmitted h;
      reconnect_calls := reconnect_calls h |}).
Proof.
  unfold connect. cbn. rewrite alter_snoc. cbn. rewrite alter_snoc. cbn.
  by destruct opts.
Qed.

(** The awaited [connect] when the transport refuses the socket: the
    promise is settled with [false] and nothing else moves. *)
Lemma await_connect_refused (h : Helper) :
  transport_opens (length (sockets h)) = false ->
  await_connect transport_opens h =
  (Some false,
   {| status := status h; ws := Some (length (sockets h));
      publisher := publisher h; listeners := listeners h; url := url h;
      options := options h; cacheMessages := cacheMessages h;
      sockets := sockets h ++
                 [mkWebSocket (url h) CLOSED (Some (length (promises h))) None None
                    (Some (OnError_resolve_false (length (promises h))))];
      promises := promises h ++ [Some false]; subscribers := subscribers h;
      fresh := fresh h; delivered := delivered h; transmitted := transmitted h;
      reconnect_calls := reconnect_calls h |}).
Proof.
  intros T. unfold await_connect. rewrite connect_eq, T.
  unfold ws_event. cbn. rewrite lookup_snoc. cbn. rewrite alter_snoc.
  unfold resolve. cbn. rewrite lookup_snoc. cbn. rewrite insert_snoc.
  by rewrite lookup_snoc.
Qed.

(** The awaited [connect] when the socket opens: [status] is set, the relay
    is made anew and wired to the new socket, the promise is settled with
    [true]. *)
Lemma await_connect_opened (h : Helper) :
  transport_opens (length (sockets h)) = true ->
  await_connect transport_opens h =
  (Some true,
   {| status := true; ws := Some (length (sockets h));
      publisher := Some (mkSubject (fresh h) [] false);
      listeners := listeners h; url := url h;
      options := options h; cacheMessages := cacheMessages h;
      sockets := sockets h ++
                 [mkWebSocket (url h) OPEN (Some (length (promises h)))
                    (Some (length (subscribers h))) (Some (length (subscribers h)))
                    (Some (OnError_observer_complete (length (subscribers h))))];
      promises := promises h ++ [Some true];
      subscribers := subscribers h ++ [false];
      fresh := S (fresh h); delivered := delivered h; transmitted := transmitted h;
      reconnect_calls := reconnect_calls h |}).
Proof.
  intros T. unfold await_connect. rewrite connect_eq, T.
  unfold ws_event. cbn. rewrite lookup_snoc. cbn. rewrite alter_snoc.
  unfold connect_onopen, initPublish. cbn. rewrite alter_snoc.
  unfold resolve. cbn. rewrite lookup_snoc. cbn. rewrite insert_snoc.
  by rewrite lookup_snoc.
Qed.

(** Every attempt of the loop is refused: the loop makes the first attempt
    and one more for each value of [reconnectTime] below [limits]. *)
Lemma reconnect_loop_refused (n : nat) :
  forall (limits reconnectTime : Z) (h : Helper),
    (limits - reconnectTime = Z.of_nat n)%Z ->
    (forall j, j <= n -> transport_opens (length (sockets h) + j) = false) ->
    let r := reconnect_loop transport_opens limits reconnectTime h in
    fst r = limits /\
    length (sockets (snd r)) = length (sockets h) + S n /\
    status (snd r) = status h.
Proof.
  induction n as [|n IH]; intros limits rt h Hn Hall; cbv zeta;
    rewrite reconnect_loop_eq, await_connect_refused
      by (rewrite <- (Nat.add_0_r (length _)); apply Hall; lia).
  - case_decide; [lia|]. cbn. rewrite length_app. cbn. repeat split; lia.
  - case_decide; [|lia].
    edestruct (IH limits (rt + 1)%Z) as (Hr & Hl & Hs); [lia| |].
    2:{ rewrite Hr, Hl, Hs. cbn. rewrite length_app. cbn. repeat split; lia. }
    intros j Hj. cbn. rewrite length_app. cbn.
    replace (length (sockets h) + 1 + j) with (length (sockets h) + S j) by lia.
    apply Hall. lia.
Qed.

(** The attempt number [k] (counting from 0) is the first that opens: the
    loop stops there, with [reconnectTime = k] more than it started with. *)
Lemma reconnect_loop_opened (k : nat) :
  forall (limits reconnectTime : Z) (h : Helper),
    (reconnectTime + Z.of_nat k <= limits)%Z ->
    (forall j, j < k -> transport_opens (length (sockets h) + j) = false) ->
    transport_opens (length (sockets h) + k) = true ->
    let r := reconnect_loop transport_opens limits reconnectTime h in
    fst r = (reconnectTime + Z.of_nat k)%Z /\
    length (sockets (snd r)) = length (sockets h) + S k /\
    status (snd r) = true.
Proof.
  induction k as [|k IH]; intros limits rt h Hk Hfail Hopen; cbv zeta;
    rewrite reconnect_loop_eq.
  - rewrite Nat.add_0_r in Hopen. rewrite await_connect_opened by done.
    cbn. rewrite length_app. cbn. repeat split; lia.
  - rewrite await_connect_refused
      by (rewrite <- (Nat.add_0_r (length _)); apply Hfail; lia).
    case_decide; [|lia].
    edestruct (IH limits (rt + 1)%Z) as (Hr & Hl & Hs); [lia| | |].
    3:{ rewrite Hr, Hl, Hs. cbn. rewrite length_app. cbn. repeat split; lia. }
    + intros j Hj. cbn. rewrite length_app. cbn.
      replace (length (sockets h) + 1 + j) with (length (sockets h) + S j) by lia.
      apply Hfail. lia.
    + cbn. rewrite length_app. cbn.
      by replace (length (sockets h) + 1 + k) with (length (sockets h) + S k) by lia.
Qed.

(** Whatever the transport does: [reconnectTime] ends between its start and
    [limits], and the loop has made one attempt more than it has counted. *)
Lemma reconnect_loop_bound (n : nat) :
  forall (limits reconnectTime : Z) (h : Helper),
    Z.to_nat (limits - reconnectTime) = n ->
    let r := reconnect_loop transport_opens limits reconnectTime h in
    (reconnectTime <= fst r <= Z.max reconnectTime limits)%Z /\
    length (sockets (snd r)) =
      length (sockets h) + S (Z.to_nat (fst r - reconnectTime)).
Proof.
  induction n as [|n IH]; intros limits rt h Hn; cbv zeta;
    rewrite reconnect_loop_eq;
    (destruct (transport_opens (length (sockets h))) eqn:T;
     [rewrite await_connect_opened by done; cbn [fst snd sockets];
      rewrite length_app; cbn [length]; split; lia
     |rewrite await_connect_refused by done]).
  - case_decide; [lia|]. cbn [fst snd sockets]. rewrite length_app. cbn [length].
    split; lia.
  - case_decide.
    + edestruct (IH limits (rt + 1)%Z) as (Hr & Hl); [lia|].
      rewrite Hl. cbn [fst snd sockets]. rewrite length_app. cbn [length].
      split; lia.
    + cbn [fst snd sockets]. rewrite length_app. cbn [length]. split; lia.
Qed.

Lemma reconnect_default_limit (h : Helper) :
  reconnect transport_opens None h = reconnect transport_opens (Some 5%Z) h.
Proof. reflexivity. Qed.

(** Without an address, [reconnect] returns at once. *)
Lemma reconnect_without_url (limits : option Z) (h : Helper) :
  url h = "" -> reconnect transport_opens limits h = (0%Z, h).
Proof. intros E. unfold reconnect. by rewrite E. Qed.

(** C4 (code defect): [reconnect(limits)] awaits [connect] before it tests
    [reconnectTime < limits], so the loop has always made one connect
    attempt more than the retries it has counted.  The counter never exceeds
    [limits], but against a transport that never opens a socket the loop
    makes [limits + 1] connect attempts, one more than the limit its
    docstring calls the max reconnect times.  As soon as an attempt opens
    its socket, the loop stops. *)
Theorem reconnect_attempts (limits : Z) (h : Helper) :
  (0 <= limits)%Z -> url h <> "" ->
  let r := reconnect transport_opens (Some limits) h in
  let attempts := length (sockets (snd r)) - length (sockets h) in
  ((0 <= fst r <= limits)%Z /\ attempts = S (Z.to_nat (fst r))) /\
  ((forall id, transport_opens id = false) ->
   fst r = limits /\ attempts = S (Z.to_nat limits) /\ status (snd r) = status h) /\
  (forall k,
      k <= Z.to_nat limits ->
      (forall j, j < k -> transport_opens (length (sockets h) + j) = false) ->
      transport_opens (length (sockets h) + k) = true ->
      fst r = Z.of_nat k /\ attempts = S k /\ status (snd r) = true).
Proof.
  intros Hl Hu. cbv zeta. unfold reconnect.
  destruct (String.eqb_spec (url h) ""); [done|].
  change (default 5%Z (Some limits)) with limits.
  split; [|split].
  - destruct (reconnect_loop_bound _ limits 0 h eq_refl) as [Hb Hn].
    rewrite Hn. split; [lia|]. rewrite Z.sub_0_r. lia.
  - intros Hall.
    destruct (reconnect_loop_refused (Z.to_nat limits) limits 0 h) as (Hr & Hn & Hs);
      [lia|by intros; apply Hall|].
    rewrite Hr, Hn, Hs. repeat split; lia.
  - intros k Hk Hfail Hopen.
    destruct (reconnect_loop_opened k limits 0 h) as (Hr & Hn & Hs); [lia|done|done|].
    rewrite Hr, Hn, Hs. repeat split; lia.
Qed.

End ReconnectProperties.

(** ** What the drain can do, whatever is in the buffer *)

(** The loop only takes payloads off the buffer and logs deliveries; it
    ends normally or by the [SyntaxError] of [JSON.parse] (or, with no
    publisher at all, by the fault on [this.publisher]); a completed
    publisher delivers nothing. *)
Lemma clear_loop_spec (c : list WsData) :
  forall h, cacheMessages h = c ->
    exists c' d,
      snd (clear_loop h) = log_delivered d (set_cacheMessages c' h) /\
      (fst (clear_loop h) = Normal \/
       (exists text, fst (clear_loop h) = Throw (SyntaxError_JSON text)) \/
       (publisher h = None /\ fst (clear_loop h) = Throw TypeError_null_publisher)) /\
      (forall p, publisher h = Some p -> isStopped p = true -> d = []).
Proof.
  induction c as [|m pre IH] using rev_ind; intros h E.
  - rewrite clear_loop_empty by done. exists [], []. cbn.
    rewrite log_delivered_nil, <- E, set_cacheMessages_id. by auto.
  - rewrite clear_loop_eq, E, pop_snoc. cbv zeta.
    destruct (truthy m); [|exists pre, []; rewrite log_delivered_nil; by auto].
    cbn [publisher set_cacheMessages].
    destruct (publisher h) as [p|] eqn:P;
      [|exists pre, []; rewrite log_delivered_nil; by auto 6].
    destruct (JSON_parse (ToString m)) as [v|];
      [|exists pre, []; rewrite log_delivered_nil; split; [done|]; split; [|done];
        right; left; by eexists].
    destruct (IH (log_delivered (Subject_next p v) (set_cacheMessages pre h)) eq_refl)
      as (c' & d & Hs & Hf & Hd).
    exists c', (Subject_next p v ++ d). split; [|split].
    + by rewrite Hs, set_cacheMessages_log, log_delivered_app.
    + destruct Hf as [Hf|[Hf|[Hf _]]]; [by left|by right; left|].
      cbn in Hf. congruence.
    + intros p' Hp' Hstop. assert (p' = p) as -> by congruence.
      rewrite (Hd p) by done. unfold Subject_next. by rewrite Hstop.
Qed.

Lemma clear_loop_frame (h : Helper) : same_frame h (snd (clear_loop h)).
Proof.
  destruct (clear_loop_spec _ h eq_refl) as (c' & d & -> & _). by repeat split.
Qed.

(** [subscribe] leaves the socket side of the helper alone. *)
Lemma subscribe_frame (callback : Callback) (h : Helper) :
  let h' := snd (subscribe callback h) in
  status h' = status h /\ ws h' = ws h /\ sockets h' = sockets h /\
  promises h' = promises h /\ subscribers h' = subscribers h /\
  reconnect_calls h' = reconnect_calls h /\ url h' = url h /\
  options h' = options h /\ transmitted h' = transmitted h.
Proof.
  cbv zeta. unfold subscribe. destruct (publisher h) as [p|]; [|done].
  unfold Subject_subscribe.
  destruct (isStopped p); cbv beta iota; rewrite clearCacheMessages_loop.
  - pose proof (clear_loop_frame (log_delivered [(callback, Complete)] h)) as F.
    destruct (clear_loop (log_delivered [(callback, Complete)] h)) as [[|e] h2];
      cbn in *; unfold same_frame in F; cbn in F; intuition congruence.
  - pose proof (clear_loop_frame (registered callback p h)) as F.
    fold (registered callback p h).
    destruct (clear_loop (registered callback p h)) as [[|e] h2];
      cbn in *; unfold same_frame in F; cbn in F; intuition congruence.
Qed.

(** [subscribe] on a live publisher keeps it live; on a completed one it
    keeps it as it is; with none it faults. *)
Lemma subscribe_publisher (callback : Callback) (h : Helper) :
  match publisher h with
  | None => subscribe callback h = (Throw TypeError_null_publisher, h)
  | Some p =>
      exists p', publisher (snd (subscribe callback h)) = Some p' /\
                 isStopped p' = isStopped p /\
                 (isStopped p = true -> p' = p)
  end.
Proof.
  unfold subscribe. destruct (publisher h) as [p|] eqn:P; [|done].
  unfold Subject_subscribe.
  destruct (isStopped p) eqn:L; cbv beta iota; rewrite clearCacheMessages_loop.
  - destruct (clear_loop_frame (log_delivered [(callback, Complete)] h))
      as (_ & _ & Fp & _).
    exists p. split; [|done].
    destruct (clear_loop (log_delivered [(callback, Complete)] h)) as [[|e] h2];
      cbn in *; congruence.
  - fold (registered callback p h).
    destruct (clear_loop_frame (registered callback p h)) as (_ & _ & Fp & _).
    exists (mkSubject (subject_id p) (observers p ++ [(fresh h, callback)]) false).
    split; [|done].
    destruct (clear_loop (registered callback p h)) as [[|e] h2]; cbn in *; congruence.
Qed.

(** ** The handlers, field by field *)

Lemma resolve_frame (p : nat) (b : bool) (h : Helper) :
  same_wiring h (resolve p b h) /\ status (resolve p b h) = status h /\
  publisher (resolve p b h) = publisher h /\
  length (promises (resolve p b h)) = length (promises h).
Proof.
  unfold resolve. destruct (promises h !! p) as [[?|]|]; cbn;
    rewrite ?length_insert; by repeat split.
Qed.

Lemma resolve_promise (p q : nat) (b : bool) (h : Helper) :
  promises (resolve p b h) !! q =
  if decide (p = q /\ promises h !! p = Some None) then Some (Some b)
  else promises h !! q.
Proof.
  unfold resolve. case_decide as D.
  - destruct D as [-> E]. rewrite E. cbn. apply list_lookup_insert_eq.
    by eapply lookup_lt_Some.
  - destruct (promises h !! p) as [[?|]|] eqn:E; [done| |done].
    cbn. apply list_lookup_insert_ne. intros ->. by apply D.
Qed.

Lemma unsubscribe_spec (item : Subscription) (h : Helper) :
  let h' := Subscription_unsubscribe item h in
  same_wiring h h' /\ status h' = status h /\ promises h' = promises h /\
  listeners h' = listeners h /\ delivered h' = delivered h /\
  match publisher h with
  | None => publisher h' = None
  | Some p => exists p', publisher h' = Some p' /\ isStopped p' = isStopped p
  end.
Proof.
  cbv zeta. unfold Subscription_unsubscribe.
  destruct item as [|sid key], (publisher h) as [p|] eqn:P; rewrite ?P;
    try (repeat split; eauto; done).
  destruct (Nat.eqb sid (subject_id p)); cbn; rewrite ?P; by repeat split; eauto.
Qed.

Lemma unsubscribe_all_spec (items : list Subscription) :
  forall h,
    let h' := fold_left (fun acc item => Subscription_unsubscribe item acc) items h in
    same_wiring h h' /\ status h' = status h /\ promises h' = promises h /\
    listeners h' = listeners h /\ delivered h' = delivered h /\
    match publisher h with
    | None => publisher h' = None
    | Some p => exists p', publisher h' = Some p' /\ isStopped p' = isStopped p
    end.
Proof.
  induction items as [|item items IH]; intros h; cbv zeta; cbn [fold_left].
  - destruct (publisher h) eqn:P; by repeat split; eauto.
  - specialize (IH (Subscription_unsubscribe item h)). cbv zeta in IH.
    pose proof (unsubscribe_spec item h) as U. cbv zeta in U.
    unfold same_wiring in *.
    destruct IH as ((?&?&?&?&?&?)&?&?&?&?&IHp), U as ((?&?&?&?&?&?)&?&?&?&?&Up).
    repeat split; try congruence.
    destruct (publisher h) as [p|].
    + destruct Up as (p1 & Hp1 & Hs1). rewrite Hp1 in IHp.
      destruct IHp as (p2 & Hp2 & Hs2). exists p2. split; congruence.
    + by rewrite Up in IHp.
Qed.

(** The [complete] handler: [status] goes to [false]; the publisher is
    completed and stays in its field. *)
Lemma on_complete_spec (h : Helper) :
  let h' := on_complete h in
  same_wiring h h' /\ status h' = false /\ promises h' = promises h /\
  match publisher h with
  | None => publisher h' = None
  | Some p => exists p', publisher h' = Some p' /\ isStopped p' = true
  end.
Proof.
  cbv zeta. unfold on_complete. cbn [publisher set_status].
  destruct (publisher h) as [p|] eqn:P; [|done].
  destruct (Subject_complete p) as [p' notes] eqn:C.
  assert (isStopped p' = true) as Hstop.
  { unfold Subject_complete in C.
    destruct (isStopped p) eqn:L; inversion C; by subst. }
  match goal with |- context [fold_left ?f ?l ?h0] =>
    pose proof (unsubscribe_all_spec l h0) as U end.
  cbv zeta in U. unfold same_wiring in *. cbn in U |- *.
  destruct U as ((?&?&?&?&?&?)&?&?&?&?&p2&?&?).
  repeat split; try congruence. exists p2. split; congruence.
Qed.

(** [initPublish] when [this.ws] holds a socket. *)
Lemma initPublish_eq (h : Helper) (id : nat) :
  ws h = Some id ->
  initPublish h =
  {| status := status h; ws := Some id;
     publisher := Some (mkSubject (fresh h) [] false);
     listeners := listeners h; url := url h; options := options h;
     cacheMessages := cacheMessages h;
     sockets := alter (wire (length (subscribers h))) id (sockets h);
     promises := promises h; subscribers := subscribers h ++ [false];
     fresh := S (fresh h); delivered := delivered h;
     transmitted := transmitted h; reconnect_calls := reconnect_calls h |}.
Proof.
  intros E. unfold initPublish. cbn. rewrite E.
  unfold set_sockets, set_subscribers, set_fresh, set_publisher. cbn. by rewrite E.
Qed.

(** In either case [initPublish] installs a new, live, empty publisher and
    leaves [status] and the promises alone. *)
Lemma initPublish_publisher (h : Helper) :
  publisher (initPublish h) = Some (mkSubject (fresh h) [] false) /\
  status (initPublish h) = status h /\ promises (initPublish h) = promises h /\
  ws (initPublish h) = ws h /\ length (sockets (initPublish h)) = length (sockets h).
Proof.
  destruct (ws h) as [id|] eqn:E.
  - rewrite (initPublish_eq h id E). cbn. by rewrite length_alter.
  - unfold initPublish. cbn. rewrite E. unfold observer_error. cbn.
    rewrite lookup_snoc. unfold on_error. cbn.
    by destruct (autoReconnect (options h)) as [[|]|].
Qed.

(** ** Invariants of every run *)

Lemma new_helper_inv : relay_inv new_helper.
Proof. by repeat split. Qed.

Lemma relay_inv_same (h h' : Helper) :
  relay_inv h -> status h' = status h -> publisher h' = publisher h ->
  reconnect_calls h' = reconnect_calls h -> ws h' = ws h ->
  length (sockets h') = length (sockets h) -> relay_inv h'.
Proof.
  unfold relay_inv, wired. intros (I1 & I2 & I3) Es Ep Er Ew El.
  rewrite Es, Ep, Er, Ew, El. done.
Qed.

Lemma relay_inv_down (h h' : Helper) :
  relay_inv h -> status h' = false ->
  reconnect_calls h' = reconnect_calls h -> ws h' = ws h ->
  length (sockets h') = length (sockets h) -> relay_inv h'.
Proof.
  unfold relay_inv, wired. intros (I1 & I2 & I3) Es Er Ew El.
  rewrite Es, Er, Ew, El. by split.
Qed.

Lemma wired_lookup (h : Helper) (id : nat) (w : WebSocket) :
  wired h -> sockets h !! id = Some w -> exists i, ws h = Some i /\ i < length (sockets h).
Proof.
  unfold wired. intros W Hw. destruct (ws h) as [i|]; [by exists i|].
  apply lookup_lt_Some in Hw. lia.
Qed.

Lemma observer_complete_spec (o : nat) (h : Helper) :
  let h' := observer_complete o h in
  ws h' = ws h /\ sockets h' = sockets h /\ reconnect_calls h' = reconnect_calls h /\
  promises h' = promises h /\
  (h' = h \/
   (subscribers h !! o = Some false /\ status h' = false /\
    match publisher h with
    | None => publisher h' = None
    | Some p => exists p', publisher h' = Some p' /\ isStopped p' = true
    end)).
Proof.
  cbv zeta. unfold observer_complete.
  destruct (subscribers h !! o) as [[|]|] eqn:E; try by (repeat split; left).
  pose proof (on_complete_spec (stop_subscriber o h)) as C. cbv zeta in C.
  unfold same_wiring in C. cbn in C. destruct C as ((?&?&?&?&?&?)&?&?&?).
  repeat split; try done. right. by repeat split.
Qed.

Lemma on_next_frame (data : WsData) (h : Helper) :
  let h' := on_next data h in
  status h' = status h /\ publisher h' = publisher h /\
  reconnect_calls h' = reconnect_calls h /\ ws h' = ws h /\
  sockets h' = sockets h /\ promises h' = promises h /\
  subscribers h' = subscribers h.
Proof.
  cbv zeta. unfold on_next. destruct (listeners h); [done|].
  by destruct (publisher h) eqn:P; cbn; rewrite ?P.
Qed.

Lemma ws_event_inv (id : nat) (ev : WsEvent) (h : Helper) :
  relay_inv h -> relay_inv (ws_event id ev h).
Proof.
  intros I. unfold ws_event. destruct (sockets h !! id) as [w|] eqn:Hw; [|done].
  destruct (wired_lookup h id w) as (i & Hi & Hlt); [apply I|done|].
  destruct ev as [|data| |].
  - destruct (onopen w) as [p|].
    + unfold connect_onopen.
      match goal with |- relay_inv (resolve p true (initPublish ?X)) =>
        destruct (resolve_frame p true (initPublish X)) as ((Rw&Rs&_&Rr&_)&Rst&Rp&_);
        rewrite (initPublish_eq X i Hi) in *
      end.
      cbn in *. destruct I as (_ & I2 & _).
      split; [|split].
      * intros _. rewrite Rp. by eexists.
      * congruence.
      * unfold wired. rewrite Rw, Rs, !length_alter. done.
    + eapply relay_inv_same; [exact I|done..|]. cbn. by rewrite length_alter.
  - destruct (onmessage w) as [o|]; [|done]. unfold observer_next.
    destruct (subscribers h !! o) as [[|]|]; try done.
    pose proof (on_next_frame data h) as F. cbv zeta in F.
    destruct F as (?&?&?&?&Fs&_).
    eapply relay_inv_same; [exact I|done..|by rewrite Fs].
  - destruct (onerror w) as [[p|o]|].
    + match goal with |- relay_inv (resolve p false ?X) =>
        destruct (resolve_frame p false X) as ((Rw&Rs&_&Rr&_)&Rst&Rp&_) end.
      eapply relay_inv_same; [exact I|done..|]. rewrite Rs. cbn. by rewrite length_alter.
    + match goal with |- relay_inv (observer_complete o ?X) =>
        destruct (observer_complete_spec o X) as (Cw&Cs&Cr&_&[->|(_&Cst&_)]) end.
      * eapply relay_inv_same; [exact I|done..|]. cbn. by rewrite length_alter.
      * eapply relay_inv_down; [exact I|done..|]. rewrite Cs. cbn. by rewrite length_alter.
    + eapply relay_inv_same; [exact I|done..|]. cbn. by rewrite length_alter.
  - destruct (onclose w) as [o|].
    + match goal with |- relay_inv (observer_complete o ?X) =>
        destruct (observer_complete_spec o X) as (Cw&Cs&Cr&_&[->|(_&Cst&_)]) end.
      * eapply relay_inv_same; [exact I|done..|]. cbn. by rewrite length_alter.
      * eapply relay_inv_down; [exact I|done..|]. rewrite Cs. cbn. by rewrite length_alter.
    + eapply relay_inv_same; [exact I|done..|]. cbn. by rewrite length_alter.
Qed.

Lemma step_inv (a : Action) (h : Helper) : relay_inv h -> relay_inv (step a h).
Proof.
  intros I. destruct a as [u opts|message| |callback|id ev]; cbn [step].
  - rewrite connect_eq. cbn [snd]. destruct I as (I1 & I2 & I3).
    split; [done|]. split; [done|]. unfold wired. cbn. rewrite length_app. cbn. lia.
  - unfold send.
    destruct (ws h) as [id|]; [|done]. destruct (sockets h !! id) as [w|]; [|done].
    destruct (readyState w); try done.
    destruct (match message with JStr s => SOk s | _ => JSON_stringify message end);
      cbn [snd]; try done; by eapply relay_inv_same.
  - unfold close. destruct (ws h) as [id|]; [|done].
    eapply relay_inv_same; [exact I|done..|]. cbn. by rewrite length_alter.
  - pose proof (subscribe_frame callback h) as F. cbv zeta in F.
    destruct F as (Fs & Fw & Fk & _ & _ & Fr & _).
    pose proof (subscribe_publisher callback h) as P.
    destruct I as (I1 & I2 & I3). split; [|split].
    + rewrite Fs. intros Hst. destruct (I1 Hst) as (p & Hp & Hl). rewrite Hp in P.
      destruct P as (p' & Hp' & Hl' & _). exists p'. split; congruence.
    + congruence.
    + unfold wired. by rewrite Fw, Fk.
  - by apply ws_event_inv.
Qed.

Lemma run_inv (actions : list Action) :
  forall h, relay_inv h -> relay_inv (run actions h).
Proof.
  induction actions as [|a actions IH]; intros h I; [done|].
  apply IH. by apply step_inv.
Qed.

(** With a publisher in the field, [subscribe] can only be left by the
    [SyntaxError] of the drain. *)
Lemma subscribe_outcome (callback : Callback) (h : Helper) (p : Subject) :
  publisher h = Some p ->
  fst (subscribe callback h) = Normal \/
  exists text, fst (subscribe callback h) = Throw (SyntaxError_JSON text).
Proof.
  intros P. unfold subscribe. rewrite P. unfold Subject_subscribe.
  destruct (isStopped p); cbv beta iota; rewrite clearCacheMessages_loop.
  - destruct (clear_loop_spec _ (log_delivered [(callback, Complete)] h) eq_refl)
      as (c' & d & _ & Hf & _).
    destruct (clear_loop (log_delivered [(callback, Complete)] h)) as [[|e] h2];
      [by left|]. right. cbn in Hf. destruct Hf as [Hf|[Hf|[Hf _]]]; [done|done|].
    congruence.
  - fold (registered callback p h).
    destruct (clear_loop_spec _ (registered callback p h) eq_refl)
      as (c' & d & _ & Hf & _).
    destruct (clear_loop (registered callback p h)) as [[|e] h2];
      [by left|]. right. cbn in Hf. destruct Hf as [Hf|[Hf|[Hf _]]]; [done|done|].
    done.
Qed.

(** ** The publisher and [status] *)

Lemma ws_event_publisher (id : nat) (ev : WsEvent) (h : Helper) :
  publisher h <> None -> publisher (ws_event id ev h) <> None.
Proof.
  intros P. unfold ws_event. destruct (sockets h !! id) as [w|]; [|done].
  destruct ev as [|data| |].
  - destruct (onopen w) as [p|]; [|done]. unfold connect_onopen.
    match goal with |- publisher (resolve p true (initPublish ?X)) <> None =>
      destruct (resolve_frame p true (initPublish X)) as (_ & _ & -> & _);
      destruct (initPublish_publisher X) as (-> & _) end.
    done.
  - destruct (onmessage w) as [o|]; [|done]. unfold observer_next.
    destruct (subscribers h !! o) as [[|]|]; try done.
    destruct (on_next_frame data h) as (_ & -> & _). done.
  - destruct (onerror w) as [[p|o]|]; [| |done].
    + match goal with |- publisher (resolve p false ?X) <> None =>
        destruct (resolve_frame p false X) as (_ & _ & -> & _) end. done.
    + match goal with |- publisher (observer_complete o ?X) <> None =>
        destruct (observer_complete_spec o X) as (_&_&_&_&[->|(_&_&C)]) end; [done|].
      cbn in C. destruct (publisher h); [|done]. by destruct C as (p' & -> & _).
  - destruct (onclose w) as [o|]; [|done].
    match goal with |- publisher (observer_complete o ?X) <> None =>
      destruct (observer_complete_spec o X) as (_&_&_&_&[->|(_&_&C)]) end; [done|].
    cbn in C. destruct (publisher h); [|done]. by destruct C as (p' & -> & _).
Qed.

Lemma step_publisher (a : Action) (h : Helper) :
  publisher h <> None -> publisher (step a h) <> None.
Proof.
  intros P. destruct a as [u opts|message| |callback|id ev]; cbn [step].
  - by rewrite connect_eq.
  - unfold send.
    destruct (ws h) as [id|]; [|done]. destruct (sockets h !! id) as [w|]; [|done].
    destruct (readyState w); try done.
    by destruct (match message with JStr s => SOk s | _ => JSON_stringify message end).
  - unfold close. by destruct (ws h).
  - pose proof (subscribe_publisher callback h) as S.
    destruct (publisher h); [|done]. by destruct S as (p' & -> & _).
  - by apply ws_event_publisher.
Qed.

(** C5 (amended): in every state a run can reach, [publisher] holds a live
    (not completed) publisher whenever [status] is true.  The field is never
    set back to null: once it holds a publisher it holds one after every
    further call and event, so after a termination [status] is false and
    [publisher] is not null. *)
Theorem publisher_live_while_status (actions : list Action) :
  let h := run actions new_helper in
  (status h = true -> exists p, publisher h = Some p /\ isStopped p = false) /\
  (forall a, publisher h <> None -> publisher (step a h) <> None).
Proof.
  cbv zeta. split.
  - apply (run_inv actions new_helper new_helper_inv).
  - intros a. apply step_publisher.
Qed.

(** The [complete] handler, run for a termination, leaves [status] false and
    the publisher completed in its field. *)
Lemma termination_keeps_publisher (o : nat) (h : Helper) (p : Subject) :
  subscribers h !! o = Some false -> publisher h = Some p ->
  status (observer_complete o h) = false /\
  exists p', publisher (observer_complete o h) = Some p' /\ isStopped p' = true.
Proof.
  intros Ho Hp. unfold observer_complete. rewrite Ho.
  destruct (on_complete_spec (stop_subscriber o h)) as (_ & Hs & _ & C).
  cbn in C. rewrite Hp in C. done.
Qed.

(** ** Reconnection is never started *)

(** C2 (code defect): [initPublish] binds the socket's [onerror] to
    [observer.complete], not to [observer.error], so the [error] handler,
    the only caller of [reconnect], never runs.  In no run at all is
    [reconnect] called; in particular, with [autoReconnect] true, a socket
    that opened and then reports an error is torn down ([status] false) and
    no further socket is made. *)
Theorem transport_error_never_reconnects :
  (forall actions, reconnect_calls (run actions new_helper) = []) /\
  (forall (u : string) (limits : option Z),
      let h := run [Connect u (Some {| autoReconnect := Some true;
                                       reconnectLimits := limits |});
                    Transport 0 EvOpen; Transport 0 EvError] new_helper in
      autoReconnect (options h) = Some true /\ status h = false /\
      length (sockets h) = 1 /\ reconnect_calls h = []).
Proof.
  split.
  - intros actions. apply (run_inv actions new_helper new_helper_inv).
  - intros u limits. vm_compute. done.
Qed.

(** ** [subscribe] without a live publisher *)

(** C6 (amended): before any socket has opened the field [publisher] is
    null and [subscribe] faults on it, leaving the helper as it was.  After
    a termination the field holds the completed publisher: [subscribe]
    raises nothing of its own (only the drain can still throw), the callback
    is told of the completion and is not added to the publisher, which
    stays as it is. *)
Theorem subscribe_without_live_publisher (h : Helper) (callback : Callback) :
  (publisher h = None ->
   subscribe callback h = (Throw TypeError_null_publisher, h)) /\
  (forall p, publisher h = Some p -> isStopped p = true ->
     let r := subscribe callback h in
     publisher (snd r) = Some p /\
     delivered (snd r) = delivered h ++ [(callback, Complete)] /\
     (fst r = Normal \/ exists text, fst r = Throw (SyntaxError_JSON text)) /\
     (cacheMessages h = [] ->
      r = (Normal,
           set_listeners (listeners h ++ [EMPTY_SUBSCRIPTION])
             (log_delivered [(callback, Complete)] h)))).
Proof.
  split.
  - intros P. unfold subscribe. by rewrite P.
  - intros p P L. cbv zeta.
    pose proof (subscribe_outcome callback h p P) as O.
    unfold subscribe in *. rewrite P in *. unfold Subject_subscribe in *.
    rewrite L in *. cbv beta iota in *. rewrite clearCacheMessages_loop in *.
    destruct (clear_loop_spec _ (log_delivered [(callback, Complete)] h) eq_refl)
      as (c' & d & Hs & _ & Hd).
    rewrite (Hd p P L), log_delivered_nil in Hs.
    split; [|split; [|split]].
    + destruct (clear_loop (log_delivered [(callback, Complete)] h)) as [[|e] h2];
        cbn in *; by subst h2.
    + destruct (clear_loop (log_delivered [(callback, Complete)] h)) as [[|e] h2];
        cbn in *; by subst h2.
    + exact O.
    + intros E. by rewrite clear_loop_empty.
Qed.

(** ** The promise of [connect] *)

(** [connect], then the first event of the new socket with nothing in
    between: the promise is settled, with [true] by [open] and with [false]
    by [error]. *)
Lemma connect_settles (u : string) (opts : option WebSocketOptions) (h : Helper) :
  let p := fst (connect u opts h) in
  let h1 := snd (connect u opts h) in
  let id := length (sockets h) in
  promises h1 !! p = Some None /\
  promises (ws_event id EvOpen h1) !! p = Some (Some true) /\
  promises (ws_event id EvError h1) !! p = Some (Some false).
Proof.
  cbv zeta. rewrite connect_eq. cbn [fst snd]. split; [|split].
  - cbn. apply lookup_snoc.
  - unfold ws_event. cbn. rewrite lookup_snoc. cbn. rewrite alter_snoc.
    unfold connect_onopen, initPublish. cbn. rewrite alter_snoc.
    unfold resolve. cbn. rewrite lookup_snoc. cbn. rewrite insert_snoc.
    apply lookup_snoc.
  - unfold ws_event. cbn. rewrite lookup_snoc. cbn. rewrite alter_snoc.
    unfold resolve. cbn. rewrite lookup_snoc. cbn. rewrite insert_snoc.
    apply lookup_snoc.
Qed.

(** C7 (code defect): [connect] is called again before the first socket has
    opened.  When the first socket opens, [initPublish] wires [this.ws],
    which by then is the second socket, and so replaces the second socket's
    [onerror].  When the second socket then fails to open, the relay is torn
    down instead, and the second promise is never settled: it is still
    pending after the error and after the close that follows it. *)
Theorem overlapping_connect_stays_pending (a b : string) :
  let h := run [Connect a None; Connect b None;
                Transport 0 EvOpen; Transport 1 EvError] new_helper in
  promises h !! 0 = Some (Some true) /\
  promises h !! 1 = Some None /\
  promises (run [Transport 1 EvClose] h) !! 1 = Some None /\
  status h = false.
Proof. vm_compute. done. Qed.

(** An event settles a pending promise with [true] only by running the
    [onopen] closure of [connect]. *)
Lemma settled_true_by_onopen (id : nat) (ev : WsEvent) (h : Helper) (p : nat) :
  promises h !! p = Some None ->
  promises (ws_event id ev h) !! p = Some (Some true) ->
  exists w, sockets h !! id = Some w /\ ev = EvOpen /\ onopen w = Some p.
Proof.
  intros Hp. unfold ws_event. destruct (sockets h !! id) as [w|]; [|congruence].
  destruct ev as [|data| |].
  - destruct (onopen w) as [p'|] eqn:Ho; [|cbn; congruence].
    unfold connect_onopen. rewrite resolve_promise.
    case_decide as D; [destruct D as [-> _]; by eauto|].
    match goal with |- promises (initPublish ?X) !! _ = _ -> _ =>
      destruct (initPublish_publisher X) as (_ & _ & -> & _) end.
    cbn. congruence.
  - destruct (onmessage w) as [o|]; [|congruence]. unfold observer_next.
    destruct (subscribers h !! o) as [[|]|]; try congruence.
    destruct (on_next_frame data h) as (_&_&_&_&_& -> &_). congruence.
  - destruct (onerror w) as [[p'|o]|]; [| |cbn; congruence].
    + rewrite resolve_promise. case_decide; [done|]. cbn. congruence.
    + match goal with |- promises (observer_complete o ?X) !! _ = _ -> _ =>
        destruct (observer_complete_spec o X) as (_&_&_& -> &_) end.
      cbn. congruence.
  - destruct (onclose w) as [o|]; [|cbn; congruence].
    match goal with |- promises (observer_complete o ?X) !! _ = _ -> _ =>
      destruct (observer_complete_spec o X) as (_&_&_& -> &_) end.
    cbn. congruence.
Qed.

(** C8: in every run, at the event that settles a promise of [connect]
    with [true], [status] is true, a new live publisher is in place,
    [this.ws] is wired to a subscriber that is listening, and [subscribe]
    does not find a null publisher. *)
Theorem publisher_ready_when_resolved (actions : list Action) (id : nat)
    (ev : WsEvent) (p : nat) (callback : Callback) :
  let h := run actions new_helper in
  let h' := ws_event id ev h in
  promises h !! p = Some None ->
  promises h' !! p = Some (Some true) ->
  status h' = true /\
  (exists s, publisher h' = Some s /\ isStopped s = false /\ observers s = []) /\
  (exists i w o, ws h' = Some i /\ sockets h' !! i = Some w /\
                 onmessage w = Some o /\ onclose w = Some o /\
                 onerror w = Some (OnError_observer_complete o) /\
                 subscribers h' !! o = Some false) /\
  fst (subscribe callback h') <> Throw TypeError_null_publisher.
Proof.
  cbv zeta. intros Hp Hp'.
  destruct (settled_true_by_onopen id ev _ p Hp Hp') as (w & Hw & -> & Ho).
  pose proof (run_inv actions new_helper new_helper_inv) as (_ & _ & W).
  destruct (wired_lookup _ id w W Hw) as (i & Hi & Hlt).
  clear Hp Hp'. unfold ws_event. rewrite Hw, Ho. unfold connect_onopen.
  set (X := set_status true
              (set_sockets (alter (set_readyState OPEN) id
                              (sockets (run actions new_helper)))
                 (run actions new_helper))).
  destruct (resolve_frame p true (initPublish X)) as ((Rw&Rs&Rb&_)&Rst&Rp&_).
  pose proof (initPublish_eq X i Hi) as IE.
  set (Y := resolve p true (initPublish X)) in *.
  assert (publisher Y = Some (mkSubject (fresh X) [] false)) as Hpub
    by (by rewrite Rp, IE).
  split; [by rewrite Rst, IE|]. split; [by eexists|]. split.
  - rewrite Rw, Rs, Rb, IE. cbn.
    destruct (lookup_lt_is_Some_2 (alter (set_readyState OPEN) id
                (sockets (run actions new_helper))) i) as [w' Hw'];
      [by rewrite length_alter|].
    exists i, (wire (length (subscribers (run actions new_helper))) w'),
           (length (subscribers (run actions new_helper))).
    rewrite list_lookup_alter_eq, Hw'. cbn. by rewrite lookup_snoc.
  - destruct (subscribe_outcome callback Y _ Hpub) as [E|[text E]]; by rewrite E.
Qed.

(** ** Further properties of the methods *)

(** X1: once [close()] has been called, [send] does nothing and raises
    nothing, whatever the message (even one [JSON.stringify] would reject),
    and before the close event has arrived: [close()] has taken the socket
    out of [OPEN]. *)
Theorem send_after_close (message : JSValue) (h : Helper) :
  send message (close h) = (Normal, close h).
Proof.
  unfold send, close. destruct (ws h) as [id|] eqn:W; [|by rewrite W].
  cbn [ws sockets set_sockets]. rewrite W, list_lookup_alter_eq.
  destruct (sockets h !! id) as [w|]; [|done]. cbn.
  by destruct (readyState w) eqn:R; cbn; rewrite ?R.
Qed.

(** X2: [connect] does not close or alter the sockets made before; it adds
    one socket and moves [this.ws] to it.  Until that socket opens [send]
    does nothing, even if an earlier socket is still open, and [close()]
    reaches the new socket only. *)
Theorem connect_moves_to_new_socket (u : string) (opts : option WebSocketOptions)
    (message : JSValue) (h : Helper) :
  let h' := snd (connect u opts h) in
  sockets h' =
    sockets h ++ [mkWebSocket u CONNECTING (Some (length (promises h))) None None
                    (Some (OnError_resolve_false (length (promises h))))] /\
  ws h' = Some (length (sockets h)) /\
  send message h' = (Normal, h') /\
  sockets (close h') =
    sockets h ++ [mkWebSocket u CLOSING (Some (length (promises h))) None None
                    (Some (OnError_resolve_false (length (promises h))))].
Proof.
  cbv zeta. rewrite connect_eq. cbn [snd]. split; [done|]. split; [done|]. split.
  - unfold send. cbn. by rewrite lookup_snoc.
  - unfold close. cbn. by rewrite alter_snoc.
Qed.

(** X3: [connect] followed at once by the first event of its socket.  The
    promise is pending after the call.  If the socket reports an error the
    promise is settled with [false] and [status], the publisher, the
    recorded subscriptions and the buffer are as before the call.  If the
    socket opens the promise is settled with [true], [status] is true and a
    new publisher without observers is in place, while the recorded
    subscriptions and the buffer of the previous connection are kept. *)
Theorem connect_then_first_event (u : string) (opts : option WebSocketOptions)
    (h : Helper) :
  let p := fst (connect u opts h) in
  let h1 := snd (connect u opts h) in
  let id := length (sockets h) in
  promises h1 !! p = Some None /\
  (promises (ws_event id EvError h1) !! p = Some (Some false) /\
   status (ws_event id EvError h1) = status h /\
   publisher (ws_event id EvError h1) = publisher h /\
   listeners (ws_event id EvError h1) = listeners h /\
   cacheMessages (ws_event id EvError h1) = cacheMessages h) /\
  (promises (ws_event id EvOpen h1) !! p = Some (Some true) /\
   status (ws_event id EvOpen h1) = true /\
   publisher (ws_event id EvOpen h1) = Some (mkSubject (fresh h) [] false) /\
   listeners (ws_event id EvOpen h1) = listeners h /\
   cacheMessages (ws_event id EvOpen h1) = cacheMessages h).
Proof.
  cbv zeta. rewrite connect_eq. cbn [fst snd]. split; [|split].
  - cbn. apply lookup_snoc.
  - unfold ws_event. cbn. rewrite lookup_snoc. cbn. rewrite alter_snoc.
    unfold resolve. cbn. rewrite lookup_snoc. cbn. rewrite insert_snoc.
    by rewrite lookup_snoc.
  - unfold ws_event. cbn. rewrite lookup_snoc. cbn. rewrite alter_snoc.
    unfold connect_onopen, initPublish. cbn. rewrite alter_snoc.
    unfold resolve. cbn. rewrite lookup_snoc. cbn. rewrite insert_snoc.
    by rewrite lookup_snoc.
Qed.

Lemma set_publisher_id (h : Helper) (q : Subject) :
  publisher h = Some q -> set_publisher (Some q) h = h.
Proof. intros E. destruct h. cbn in *. by subst. Qed.

(** Releasing subscriptions of a publisher that has no observers left
    changes nothing. *)
Lemma unsubscribe_all_empty (items : list Subscription) (h : Helper) (q : Subject) :
  publisher h = Some q -> observers q = [] ->
  fold_left (fun acc item => Subscription_unsubscribe item acc) items h = h.
Proof.
  intros P O. induction items as [|item items IH]; [done|]. cbn [fold_left].
  assert (Subscription_unsubscribe item h = h) as ->; [|exact IH].
  unfold Subscription_unsubscribe. destruct item as [|sid key]; [done|]. rewrite P.
  destruct (Nat.eqb sid (subject_id q)); [|done]. rewrite O.
  apply set_publisher_id. rewrite P. destruct q. cbn in *. by subst.
Qed.

(** The [complete] handler on a live publisher, spelled out. *)
Lemma on_complete_live (h : Helper) (p : Subject) :
  publisher h = Some p -> isStopped p = false ->
  on_complete h =
  set_listeners []
    (log_delivered (map (fun ob => (snd ob, Complete)) (observers p))
       (set_publisher (Some (mkSubject (subject_id p) [] true)) (set_status false h))).
Proof.
  intros P L. unfold on_complete. cbn [publisher set_status]. rewrite P.
  unfold Subject_complete. rewrite L.
  by rewrite (unsubscribe_all_empty _ _ (mkSubject (subject_id p) [] true)).
Qed.

(** X4: termination.  When a socket wired by [initPublish] reports an error
    while the publisher is live, [status] becomes false, every observer of
    the publisher is notified of completion once, in registration order, the
    publisher is completed and emptied, the recorded subscriptions are
    dropped, and the buffer is left as it is.  The close event that follows
    on the same socket finds the subscriber stopped and changes none of
    this: nobody is notified twice. *)
Theorem termination_notifies_once (id o : nat) (w : WebSocket) (h : Helper)
    (p : Subject) :
  sockets h !! id = Some w ->
  onerror w = Some (OnError_observer_complete o) -> onclose w = Some o ->
  subscribers h !! o = Some false ->
  publisher h = Some p -> isStopped p = false ->
  let h1 := ws_event id EvError h in
  let h2 := ws_event id EvClose h1 in
  (status h1 = false /\ listeners h1 = [] /\
   publisher h1 = Some (mkSubject (subject_id p) [] true) /\
   delivered h1 = delivered h ++ map (fun ob => (snd ob, Complete)) (observers p) /\
   cacheMessages h1 = cacheMessages h) /\
  (status h2 = false /\ listeners h2 = [] /\ publisher h2 = publisher h1 /\
   delivered h2 = delivered h1 /\ cacheMessages h2 = cacheMessages h1).
Proof.
  intros Hw Herr Hclose Ho P L. cbv zeta.
  assert (ws_event id EvError h =
          set_listeners []
            (log_delivered (map (fun ob => (snd ob, Complete)) (observers p))
               (set_publisher (Some (mkSubject (subject_id p) [] true))
                  (set_status false
                     (stop_subscriber o
                        (set_sockets (alter (set_readyState CLOSED) id (sockets h)) h))))))
    as E.
  { unfold ws_event. rewrite Hw, Herr. unfold observer_complete.
    cbn [subscribers set_sockets]. rewrite Ho.
    by rewrite (on_complete_live _ p). }
  rewrite E. split; [done|].
  unfold ws_event. cbn [sockets set_listeners log_delivered set_publisher set_status
                        stop_subscriber set_subscribers set_sockets].
  rewrite list_lookup_alter_eq, Hw. cbn [fmap option_fmap option_map set_readyState onclose].
  rewrite Hclose. unfold observer_complete.
  cbn [subscribers set_listeners log_delivered set_publisher set_status
       stop_subscriber set_subscribers set_sockets].
  rewrite list_lookup_insert_eq by (by eapply lookup_lt_Some).
  done.
Qed.

(** X5: payloads that arrive while no subscription is recorded are appended
    to the buffer as they came, in order of arrival, valid JSON or not; none
    is delivered and nothing else in the helper changes. *)
Theorem payloads_wait_in_the_buffer (id : nat) (payloads : list WsData) (h : Helper) :
  relays id h -> listeners h = [] ->
  receive id payloads h = set_cacheMessages (cacheMessages h ++ payloads) h /\
  delivered (receive id payloads h) = delivered h.
Proof.
  intros R L. rewrite receive_buffers by done. done.
Qed.

(** X6: with a subscription recorded but no observer on the publisher (the
    subscription is stale), an arriving payload is neither delivered nor
    buffered: the helper is exactly as before. *)
Theorem payload_lost_with_stale_subscription (id : nat) (data : WsData)
    (h : Helper) (p : Subject) :
  relays id h -> listeners h <> [] -> publisher h = Some p -> observers p = [] ->
  ws_event id (EvMessage data) h = h.
Proof.
  intros (w & o & Hw & Ho & Hs) L P O.
  unfold ws_event. rewrite Hw, Ho. unfold observer_next. rewrite Hs.
  unfold on_next. destruct (listeners h); [done|]. rewrite P.
  unfold Subject_next. rewrite O. destruct (isStopped p); apply log_delivered_nil.
Qed.

Lemma subscribe_empty_buffer (h : Helper) (p : Subject) (callback : Callback) :
  publisher h = Some p -> isStopped p = false -> cacheMessages h = [] ->
  subscribe callback h =
  (Normal,
   set_listeners (listeners h ++ [SubjectSubscription (subject_id p) (fresh h)])
     (registered callback p h)).
Proof.
  intros P L C. rewrite (subscribe_live h p callback P L).
  by rewrite clear_loop_empty.
Qed.

(** Several callbacks subscribe one after the other with an empty buffer:
    they are appended to the observers of the publisher in that order, one
    subscription is recorded for each, and nothing is delivered. *)
Lemma subscribe_all (callbacks : list Callback) :
  forall (h : Helper) (p : Subject),
    publisher h = Some p -> isStopped p = false -> cacheMessages h = [] ->
    let h' := run (map Subscribe callbacks) h in
    exists p',
      publisher h' = Some p' /\ isStopped p' = false /\
      map snd (observers p') = map snd (observers p) ++ callbacks /\
      cacheMessages h' = [] /\ delivered h' = delivered h /\
      sockets h' = sockets h /\ subscribers h' = subscribers h /\
      length (listeners h') = length (listeners h) + length callbacks.
Proof.
  induction callbacks as [|cb cbs IH]; intros h p P L C; cbv zeta.
  - exists p. cbn. rewrite app_nil_r. repeat split; try done; lia.
  - change (run (map Subscribe (cb :: cbs)) h)
      with (run (map Subscribe cbs) (snd (subscribe cb h))).
    rewrite (subscribe_empty_buffer h p cb P L C). cbn [snd].
    edestruct (IH (set_listeners
                     (listeners h ++ [SubjectSubscription (subject_id p) (fresh h)])
                     (registered cb p h))
                  (mkSubject (subject_id p) (observers p ++ [(fresh h, cb)]) false))
      as (p' & P' & L' & O' & C' & D' & S' & B' & N'); [done|done|done|].
    exists p'. rewrite P', L', O', C', D', S', B', N'. cbn.
    rewrite map_app, length_app, <- app_assoc. cbn. repeat split; try done; lia.
Qed.

(** X7: fan-out.  After any number of callbacks (at least one) have
    subscribed, a text payload that arrives is delivered once to every
    observer of the publisher, earlier observers first and then the new
    callbacks in the order in which they subscribed; each receives the value
    [JSON.parse] gives, or the raw string when [JSON.parse] rejects the
    text.  Nothing is buffered. *)
Theorem fan_out_in_registration_order (id : nat) (h : Helper) (p : Subject)
    (callbacks : list Callback) (text : string) :
  relays id h -> publisher h = Some p -> isStopped p = false ->
  cacheMessages h = [] -> callbacks <> [] ->
  let h' := ws_event id (EvMessage (DText text)) (run (map Subscribe callbacks) h) in
  delivered h' =
    delivered h ++
    map (fun cb => (cb, Next (default (JStr text) (JSON_parse text))))
        (map snd (observers p) ++ callbacks) /\
  cacheMessages h' = [].
Proof.
  intros (w & o & Hw & Ho & Hs) P L C N. cbv zeta.
  destruct (subscribe_all callbacks h p P L C)
    as (p' & P' & L' & O' & C' & D' & S' & B' & N').
  rewrite (live_delivery id _ p' text).
  - cbn. rewrite D', C'. split; [|done]. f_equal.
    unfold Subject_next. rewrite L', <- O', map_map. done.
  - exists w, o. by rewrite S', B'.
  - intros E. rewrite E in N'. cbn in N'. destruct callbacks; [done|]. cbn in N'. lia.
  - exact P'.
Qed.

(** X8: the buffer outlives the connection.  Payloads that arrived while
    nobody was subscribed are still in the buffer after the socket has
    closed, after a new [connect] and after the new socket has opened; the
    first callback to subscribe on the new connection receives them, the
    last one buffered first. *)
Theorem buffer_survives_reconnection (u u' : string) (callback : Callback)
    (payloads : list WsData) (vs : list JSValue) :
  Forall2 decodes payloads vs ->
  let h := run [Transport 0 EvClose; Connect u' None; Transport 1 EvOpen]
               (receive 0 payloads (opened u)) in
  cacheMessages h = payloads /\ status h = true /\
  delivered (snd (subscribe callback h)) = map (fun v => (callback, Next v)) (rev vs) /\
  cacheMessages (snd (subscribe callback h)) = [].
Proof.
  intros F. cbv zeta. rewrite receive_opened, opened_eq.
  assert (run [Transport 0 EvClose; Connect u' None; Transport 1 EvOpen]
            (set_cacheMessages payloads
               {| status := true; ws := Some 0;
                  publisher := Some (mkSubject 0 [] false); listeners := [];
                  url := u; options := default_options; cacheMessages := [];
                  sockets := [mkWebSocket u OPEN (Some 0) (Some 0) (Some 0)
                                (Some (OnError_observer_complete 0))];
                  promises := [Some true]; subscribers := [false]; fresh := 1;
                  delivered := []; transmitted := []; reconnect_calls := [] |}) =
          {| status := true; ws := Some 1;
             publisher := Some (mkSubject 1 [] false); listeners := [];
             url := u'; options := default_options; cacheMessages := payloads;
             sockets := [mkWebSocket u CLOSED (Some 0) (Some 0) (Some 0)
                           (Some (OnError_observer_complete 0));
                         mkWebSocket u' OPEN (Some 1) (Some 1) (Some 1)
                           (Some (OnError_observer_complete 1))];
             promises := [Some true; Some true]; subscribers := [true; false];
             fresh := 2; delivered := []; transmitted := [];
             reconnect_calls := [] |}) as ->
    by (vm_compute; reflexivity).
  split; [done|]. split; [done|].
  erewrite (subscribe_drains_decodable _ (mkSubject 1 [] false) callback vs);
    [|reflexivity|reflexivity|exact F].
  cbn. by rewrite flat_map_singleton.
Qed.

(** ** Further properties of [reconnect] *)

Section ReconnectFurther.

Variable transport_opens : nat -> bool.

Lemma reconnect_loop_frame (n : nat) :
  forall (limits reconnectTime : Z) (h : Helper),
    Z.to_nat (limits - reconnectTime) = n ->
    let h' := snd (reconnect_loop transport_opens limits reconnectTime h) in
    url h' = url h /\ options h' = options h /\
    cacheMessages h' = cacheMessages h /\ listeners h' = listeners h /\
    delivered h' = delivered h /\ transmitted h' = transmitted h /\
    exists new, sockets h' = sockets h ++ new /\
                Forall (fun w => ws_url w = url h) new.
Proof.
  induction n as [|n IH]; intros limits rt h Hn; cbv zeta;
    rewrite reconnect_loop_eq;
    (destruct (transport_opens (length (sockets h))) eqn:T;
     [rewrite await_connect_opened by done; cbn;
      repeat split; try done; eexists; split; [done|]; by repeat constructor
     |rewrite await_connect_refused by done]).
  - case_decide; [lia|]. cbn.
    repeat split; try done. eexists; split; [done|]. by repeat constructor.
  - case_decide.
    + edestruct (IH limits (rt + 1)%Z) as (Hu & Ho & Hc & Hl & Hd & Ht & new & Hs & Hn');
        [lia|].
      rewrite Hu, Ho, Hc, Hl, Hd, Ht, Hs. cbn in *.
      repeat split; try done. eexists. split; [by rewrite <- app_assoc|].
      by constructor.
    + cbn. repeat split; try done. eexists; split; [done|]. by repeat constructor.
Qed.

(** X9: whatever the transport does and whatever the limit, [reconnect]
    leaves the stored address and options, the buffer, the recorded
    subscriptions and the logs of deliveries and transmissions as they
    were; the sockets made before are untouched and every socket it adds is
    opened on the stored address. *)
Theorem reconnect_keeps_relay_state (limits : option Z) (h : Helper) :
  let h' := snd (reconnect transport_opens limits h) in
  url h' = url h /\ options h' = options h /\
  cacheMessages h' = cacheMessages h /\ listeners h' = listeners h /\
  delivered h' = delivered h /\ transmitted h' = transmitted h /\
  exists new, sockets h' = sockets h ++ new /\
              Forall (fun w => ws_url w = url h) new.
Proof.
  cbv zeta. unfold reconnect. destruct (String.eqb (url h) "").
  - cbn. repeat split; try done. exists []. by rewrite app_nil_r.
  - by apply (reconnect_loop_frame _ _ 0%Z h eq_refl).
Qed.

(** X10: the limit at its edges.  With a limit of zero or below, [reconnect]
    still makes one connect attempt, and only one, and counts no retry.
    With the limit left out it is 5: against a transport that refuses every
    socket the loop counts 5 retries and makes 6 attempts. *)
Theorem reconnect_limit_edges (h : Helper) :
  url h <> "" ->
  (forall limits, (limits <= 0)%Z ->
     fst (reconnect transport_opens (Some limits) h) = 0%Z /\
     length (sockets (snd (reconnect transport_opens (Some limits) h))) =
       S (length (sockets h))) /\
  ((forall id, transport_opens id = false) ->
   fst (reconnect transport_opens None h) = 5%Z /\
   length (sockets (snd (reconnect transport_opens None h))) = length (sockets h) + 6).
Proof.
  intros Hu. unfold reconnect. destruct (String.eqb_spec (url h) ""); [done|].
  split.
  - intros limits Hl. change (default 5%Z (Some limits)) with limits.
    destruct (reconnect_loop_bound transport_opens _ limits 0 h eq_refl) as [Hb Hn].
    assert (fst (reconnect_loop transport_opens limits 0 h) = 0%Z) as E by lia.
    rewrite Hn, E. split; [done|]. cbn. lia.
  - intros Hall. change (default 5%Z None) with 5%Z.
    destruct (reconnect_loop_refused transport_opens 5 5 0 h) as (Hr & Hn & _);
      [done|by intros; apply Hall|].
    by rewrite Hr, Hn.
Qed.

End ReconnectFurther.

(** ** [this.ws] *)

Lemma ws_event_wiring (id : nat) (ev : WsEvent) (h : Helper) :
  ws (ws_event id ev h) = ws h /\
  length (sockets (ws_event id ev h)) = length (sockets h).
Proof.
  unfold ws_event. destruct (sockets h !! id) as [w|]; [|done].
  destruct ev as [|data| |].
  - destruct (onopen w) as [p|]; [|cbn; by rewrite length_alter].
    unfold connect_onopen.
    match goal with |- context [resolve p true (initPublish ?X)] =>
      destruct (resolve_frame p true (initPublish X)) as ((-> & -> & _) & _);
      destruct (initPublish_publisher X) as (_ & _ & _ & -> & ->) end.
    cbn. by rewrite length_alter.
  - destruct (onmessage w) as [o|]; [|done]. unfold observer_next.
    destruct (subscribers h !! o) as [[|]|]; try done.
    by destruct (on_next_frame data h) as (_ & _ & _ & -> & -> & _).
  - destruct (onerror w) as [[p|o]|]; [| |cbn; by rewrite length_alter].
    + match goal with |- context [resolve p false ?X] =>
        destruct (resolve_frame p false X) as ((-> & -> & _) & _) end.
      cbn. by rewrite length_alter.
    + match goal with |- context [observer_complete o ?X] =>
        destruct (observer_complete_spec o X) as (-> & -> & _) end.
      cbn. by rewrite length_alter.
  - destruct (onclose w) as [o|]; [|cbn; by rewrite length_alter].
    match goal with |- context [observer_complete o ?X] =>
      destruct (observer_complete_spec o X) as (-> & -> & _) end.
    cbn. by rewrite length_alter.
Qed.

Lemma step_ws_is_latest (a : Action) (h : Helper) :
  ws_is_latest h -> ws_is_latest (step a h).
Proof.
  unfold ws_is_latest. intros I.
  destruct a as [u opts|message| |callback|id ev]; cbn [step].
  - rewrite connect_eq. cbn. rewrite length_app. cbn. lia.
  - assert (ws (snd (send message h)) = ws h /\
            sockets (snd (send message h)) = sockets h) as (-> & ->); [|done].
    unfold send. destruct (ws h) as [id|] eqn:W; [|cbn; by rewrite W].
    destruct (sockets h !! id) as [w|]; [|cbn; by rewrite W].
    destruct (readyState w); try (cbn; by rewrite W).
    by destruct (match message with JStr s => SOk s | _ => JSON_stringify message end);
      cbn; rewrite W.
  - assert (ws (close h) = ws h /\
            length (sockets (close h)) = length (sockets h)) as (-> & ->); [|done].
    unfold close. destruct (ws h) as [id|] eqn:W; [|cbn; by rewrite W].
    cbn. by rewrite W, length_alter.
  - destruct (subscribe_frame callback h) as (_ & -> & -> & _). done.
  - destruct (ws_event_wiring id ev h) as (-> & ->). done.
Qed.

(** X11: in every run, [this.ws] is null as long as no socket was made and
    afterwards is the socket made by the latest [connect]: [send] and
    [close()] never reach an earlier socket, and the non-null assertion on
    [this.ws] in [initPublish] never fails. *)
Theorem ws_is_always_the_latest_socket (actions : list Action) :
  ws_is_latest (run actions new_helper).
Proof.
  assert (forall h, ws_is_latest h -> ws_is_latest (run actions h)) as H.
  { induction actions as [|a actions IH]; intros h I; [done|].
    apply IH. by apply step_ws_is_latest. }
  apply H. reflexivity.
Qed.

End Helper.

(** * The model on concrete inputs *)

Import JSONFragment.
Local Open Scope list_scope.

(** A new helper, connected to [ws://a], the socket open. *)
Abbreviation connected := (opened parse stringify "ws://a").

(** C1 (code defect): not every sequence of buffered payloads is delivered
    by [subscribe].  With [1] then [hello] buffered, the drain pops [hello]
    first, [JSON.parse] throws, and [subscribe] is left with nothing
    delivered, [1] still in the buffer and the subscription unrecorded, so
    that a payload arriving afterwards is buffered again instead of reaching
    the callback.  With [1], the empty string and [2] buffered, the drain
    delivers [2], pops the empty string, takes it for the end of the buffer,
    and [1] is never delivered. *)
Theorem buffered_payloads_are_lost :
  (fst (subscribe parse 7 (receive parse 0 [DText "1"; DText "hello"] connected)) =
     Throw (SyntaxError_JSON "hello") /\
   delivered (snd (subscribe parse 7
                     (receive parse 0 [DText "1"; DText "hello"] connected))) = [] /\
   cacheMessages (snd (subscribe parse 7
                         (receive parse 0 [DText "1"; DText "hello"] connected))) =
     [DText "1"] /\
   delivered (ws_event parse 0 (EvMessage (DText "3"))
                (snd (subscribe parse 7
                        (receive parse 0 [DText "1"; DText "hello"] connected)))) = []) /\
  (subscribe parse 7 (receive parse 0 [DText "1"; DText ""; DText "2"] connected) =
     (Normal,
      snd (subscribe parse 7
             (receive parse 0 [DText "1"; DText ""; DText "2"] connected))) /\
   delivered (snd (subscribe parse 7
                     (receive parse 0 [DText "1"; DText ""; DText "2"] connected))) =
     [(7, Next (JNum 2))] /\
   cacheMessages (snd (subscribe parse 7
                         (receive parse 0 [DText "1"; DText ""; DText "2"] connected))) =
     [DText "1"]).
Proof. vm_compute. done. Qed.

(** The same sequences without the two offending payloads are delivered in
    full, last one first. *)
Example buffered_payloads_delivered :
  delivered (snd (subscribe parse 7 (receive parse 0 [DText "1"; DText "2"] connected))) =
  [(7, Next (JNum 2)); (7, Next (JNum 1))].
Proof. vm_compute. done. Qed.

Lemma connected_eq :
  connected =
  {| status := true; ws := Some 0;
     publisher := Some (mkSubject 0 [] false); listeners := [];
     url := "ws://a"; options := default_options; cacheMessages := [];
     sockets := [mkWebSocket "ws://a" OPEN (Some 0) (Some 0) (Some 0)
                   (Some (OnError_observer_complete 0))];
     promises := [Some true]; subscribers := [false]; fresh := 1;
     delivered := []; transmitted := []; reconnect_calls := [] |}.
Proof. apply opened_eq. Qed.

(** C3, at the payload [hello]. *)
Lemma buffered_hello_is_thrown :
  "hello" <> "" /\ parse "hello" = None /\
  fst (subscribe parse 7 (receive parse 0 [DText "hello"] connected)) =
    Throw (SyntaxError_JSON "hello") /\
  delivered (snd (subscribe parse 7 (receive parse 0 [DText "hello"] connected))) = [] /\
  delivered (run parse stringify
               [Subscribe 7; Transport 0 (EvMessage (DText "hello"))] connected) =
    [(7, Next (JStr "hello"))].
Proof.
  assert ("hello" <> "") as Hne by discriminate.
  assert (parse "hello" = None) as Hparse by reflexivity.
  destruct (buffered_invalid_json_is_thrown parse stringify "ws://a" "hello" 7 Hne Hparse)
    as [(H1 & H2 & _) H3].
  repeat split; assumption.
Defined.

(** C4, with a limit of 2 against a transport that refuses every socket:
    three connect attempts, where the limit allows two. *)
Lemma reconnect_limit_two :
  (0 <= 2)%Z /\ url connected <> "" /\
  fst (reconnect parse (fun _ => false) (Some 2%Z) connected) = 2%Z /\
  length (sockets (snd (reconnect parse (fun _ => false) (Some 2%Z) connected))) -
    length (sockets connected) = 3.
Proof.
  assert (0 <= 2)%Z as Hl by lia.
  assert (url connected <> "") as Hu by (rewrite connected_eq; discriminate).
  destruct (reconnect_attempts parse (fun _ => false) 2 connected Hl Hu)
    as (_ & Hall & _).
  destruct (Hall (fun _ => eq_refl)) as (Hr & Ha & _).
  repeat split; assumption.
Defined.

(** C5 as stated fails: after connect, open and close, [status] is false
    and [publisher] is not null. *)
Lemma publisher_kept_after_close :
  ~ (forall actions, publisher_iff_status (run parse stringify actions new_helper)).
Proof.
  intros H.
  destruct (H [Connect "ws://a" None; Transport 0 EvOpen; Transport 0 EvClose])
    as [_ H2].
  vm_compute in H2. specialize (H2 eq_refl). discriminate H2.
Qed.

(** C6 as stated fails: after connect, open and close, [subscribe] returns
    normally. *)
Lemma subscribe_after_close_returns :
  ~ subscribe_without_connection_raises parse stringify.
Proof.
  intros H.
  destruct (H [Connect "ws://a" None; Transport 0 EvOpen; Transport 0 EvClose] 7)
    as [e He]; [by vm_compute|].
  vm_compute in He. discriminate He.
Qed.

(** C8, at the first connect of a new helper. *)
Lemma publisher_ready_after_first_open :
  promises (run parse stringify [Connect "ws://a" None] new_helper) !! 0 = Some None /\
  promises (ws_event parse 0 EvOpen
              (run parse stringify [Connect "ws://a" None] new_helper)) !! 0 =
    Some (Some true) /\
  status (ws_event parse 0 EvOpen
            (run parse stringify [Connect "ws://a" None] new_helper)) = true /\
  fst (subscribe parse 7
         (ws_event parse 0 EvOpen
            (run parse stringify [Connect "ws://a" None] new_helper))) <>
    Throw TypeError_null_publisher.
Proof.
  assert (promises (run parse stringify [Connect "ws://a" None] new_helper) !! 0 =
          Some None) as Hp by reflexivity.
  assert (promises (ws_event parse 0 EvOpen
                      (run parse stringify [Connect "ws://a" None] new_helper)) !! 0 =
          Some (Some true)) as Hp' by reflexivity.
  destruct (publisher_ready_when_resolved parse stringify
              [Connect "ws://a" None] 0 EvOpen 0 7 Hp Hp') as (Hs & _ & _ & Hf).
  repeat split; assumption.
Defined.

(** C9, on the connected helper: a string, an object, and a BigInt. *)
Lemma send_examples :
  (ws connected = Some 0 /\
   is_string (JObj [("x", JNum 1)]) = false /\ is_string (JBigInt 1) = false /\
   stringify (JBigInt 1) = SThrows) /\
  send stringify (JStr "ping") connected =
    (Normal, log_transmitted 0 "ping" connected) /\
  send stringify (JObj [("x", JNum 1)]) connected =
    (Normal, log_transmitted 0 (String.append "{" (String.append (quote "x") ":1}"))
               connected) /\
  send stringify (JBigInt 1) connected =
    (Throw (Error_invalid_message (JBigInt 1)), connected).
Proof.
  assert (ws connected = Some 0) as Hws by (by rewrite connected_eq).
  assert (sockets connected !! 0 =
          Some (mkWebSocket "ws://a" OPEN (Some 0) (Some 0) (Some 0)
                  (Some (OnError_observer_complete 0)))) as Hw
    by (by rewrite connected_eq).
  destruct (send_when_open stringify connected 0 _ Hws Hw eq_refl) as (H1 & H2 & H3).
  split; [by repeat split|]. split; [apply H1|]. split.
  - apply H2; reflexivity.
  - apply H3; reflexivity.
Defined.

(** C10 as stated fails: with [1], the empty string and [2] buffered, the
    buffer after [subscribe] holds [1] alone; the empty string is gone. *)
Lemma empty_string_is_dropped : ~ drain_leaves_empty_string parse.
Proof.
  intros H.
  assert (publisher (receive parse 0 [DText "1"; DText ""; DText "2"] connected) =
          Some (mkSubject 0 [] false)) as Hp by (by vm_compute).
  assert (cacheMessages (receive parse 0 [DText "1"; DText ""; DText "2"] connected) =
          [DText "1"] ++ [DText ""] ++ [DText "2"]) as Hc by (by vm_compute).
  assert (Forall2 (decodes parse) [DText "2"] [JNum 2]) as Hf
    by (repeat constructor).
  specialize (H _ _ 7 _ _ _ Hp eq_refl Hc Hf).
  vm_compute in H. discriminate H.
Qed.

(** C10 (amended), on the same buffer. *)
Lemma drain_stops_example :
  (cacheMessages (receive parse 0 [DText "1"; DText ""; DText "2"] connected) =
     [DText "1"] ++ [DText ""] ++ [DText "2"] /\
   Forall2 (decodes parse) [DText "2"] [JNum 2]) /\
  fst (subscribe parse 7
         (receive parse 0 [DText "1"; DText ""; DText "2"] connected)) = Normal /\
  cacheMessages (snd (subscribe parse 7
                        (receive parse 0 [DText "1"; DText ""; DText "2"] connected))) =
    [DText "1"].
Proof.
  assert (publisher (receive parse 0 [DText "1"; DText ""; DText "2"] connected) =
          Some (mkSubject 0 [] false)) as Hp by (vm_compute; reflexivity).
  assert (cacheMessages (receive parse 0 [DText "1"; DText ""; DText "2"] connected) =
          [DText "1"] ++ [DText ""] ++ [DText "2"]) as Hc by (vm_compute; reflexivity).
  assert (Forall2 (decodes parse) [DText "2"] [JNum 2]) as Hf
    by (repeat constructor).
  destruct (drain_stops_at_empty_string parse _ _ 7 _ _ _ Hp eq_refl Hc Hf)
    as (H1 & H2 & _).
  repeat split; assumption.
Defined.

(** X4, with two subscribers on the connected helper. *)
Lemma termination_of_two_subscribers :
  delivered (ws_event parse 0 EvError
               (run parse stringify [Subscribe 7; Subscribe 8] connected)) =
    [(7, Complete); (8, Complete)] /\
  delivered (ws_event parse 0 EvClose
               (ws_event parse 0 EvError
                  (run parse stringify [Subscribe 7; Subscribe 8] connected))) =
    [(7, Complete); (8, Complete)].
Proof.
  destruct (termination_notifies_once parse 0 0
              (mkWebSocket "ws://a" OPEN (Some 0) (Some 0) (Some 0)
                 (Some (OnError_observer_complete 0)))
              (run parse stringify [Subscribe 7; Subscribe 8] connected)
              (mkSubject 0 [(1, 7); (2, 8)] false))
    as ((_ & _ & _ & D1 & _) & (_ & _ & _ & D2 & _));
    [vm_compute; reflexivity..|].
  rewrite D2, D1. split; vm_compute; reflexivity.
Defined.

(** X5, with a JSON payload and one that is not JSON. *)
Lemma two_payloads_wait :
  cacheMessages (receive parse 0 [DText "1"; DText "hello"] connected) =
    [DText "1"; DText "hello"] /\
  delivered (receive parse 0 [DText "1"; DText "hello"] connected) = [].
Proof.
  destruct (payloads_wait_in_the_buffer parse 0 [DText "1"; DText "hello"] connected
              (opened_relays parse stringify "ws://a")
              (opened_listeners parse stringify "ws://a")) as [E D].
  rewrite D, E. rewrite connected_eq. split; reflexivity.
Defined.

(** X6, reached by subscribing after the socket has closed and connecting
    again: the stale subscription stays recorded and the next payload of
    the new connection is lost. *)
Lemma payload_lost_after_late_subscribe :
  listeners (run parse stringify
               [Transport 0 EvClose; Subscribe 7; Connect "ws://b" None;
                Transport 1 EvOpen] connected) = [EMPTY_SUBSCRIPTION] /\
  ws_event parse 1 (EvMessage (DText "1"))
    (run parse stringify
       [Transport 0 EvClose; Subscribe 7; Connect "ws://b" None;
        Transport 1 EvOpen] connected) =
  run parse stringify
    [Transport 0 EvClose; Subscribe 7; Connect "ws://b" None;
     Transport 1 EvOpen] connected.
Proof.
  split; [vm_compute; reflexivity|].
  apply (payload_lost_with_stale_subscription parse 1 (DText "1") _
           (mkSubject 1 [] false)).
  - exists (mkWebSocket "ws://b" OPEN (Some 1) (Some 1) (Some 1)
              (Some (OnError_observer_complete 1))), 1.
    repeat split; vm_compute; reflexivity.
  - vm_compute. discriminate.
  - vm_compute. reflexivity.
  - reflexivity.
Defined.

(** X7, with two callbacks and a payload that is not JSON. *)
Lemma fan_out_to_two :
  delivered (ws_event parse 0 (EvMessage (DText "hello"))
               (run parse stringify (map Subscribe [7; 8]) connected)) =
    [(7, Next (JStr "hello")); (8, Next (JStr "hello"))].
Proof.
  destruct (fan_out_in_registration_order parse stringify 0 connected
              (mkSubject 0 [] false) [7; 8] "hello") as [D _].
  - apply opened_relays.
  - by rewrite connected_eq.
  - reflexivity.
  - by rewrite connected_eq.
  - discriminate.
  - rewrite D, connected_eq. reflexivity.
Defined.

(** X8, with two buffered payloads. *)
Lemma two_payloads_survive :
  Forall2 (decodes parse) [DText "1"; DText "2"] [JNum 1; JNum 2] /\
  delivered (snd (subscribe parse 7
                    (run parse stringify
                       [Transport 0 EvClose; Connect "ws://b" None; Transport 1 EvOpen]
                       (receive parse 0 [DText "1"; DText "2"] connected)))) =
    [(7, Next (JNum 2)); (7, Next (JNum 1))].
Proof.
  assert (Forall2 (decodes parse) [DText "1"; DText "2"] [JNum 1; JNum 2]) as F
    by (repeat constructor).
  destruct (buffer_survives_reconnection parse stringify "ws://a" "ws://b" 7 _ _ F)
    as (_ & _ & D & _).
  split; [exact F|exact D].
Defined.

(** X10, on the connected helper against a transport that refuses every
    socket. *)
Lemma reconnect_limit_zero_and_default :
  url connected <> "" /\
  fst (reconnect parse (fun _ => false) (Some 0%Z) connected) = 0%Z /\
  length (sockets (snd (reconnect parse (fun _ => false) (Some 0%Z) connected))) = 2 /\
  fst (reconnect parse (fun _ => false) None connected) = 5%Z /\
  length (sockets (snd (reconnect parse (fun _ => false) None connected))) = 7.
Proof.
  assert (url connected <> "") as Hu by (rewrite connected_eq; discriminate).
  destruct (reconnect_limit_edges parse (fun _ => false) connected Hu) as [H0 H5].
  destruct (H0 0%Z) as [R0 L0]; [lia|].
  destruct (H5 (fun _ => eq_refl)) as [R5 L5].
  rewrite R0, L0, R5, L5. rewrite connected_eq. repeat split. exact Hu.
Defined.

(** X12, with two buffered payloads and a third that arrives after
    [subscribe]. *)
Lemma two_buffered_then_one_live :
  Forall2 (decodes parse) [DText "1"; DText "2"] [JNum 1; JNum 2] /\
  delivered (run parse stringify
               [Subscribe 7; Transport 0 (EvMessage (DText "3"))]
               (receive parse 0 [DText "1"; DText "2"] connected)) =
    [(7, Next (JNum 2)); (7, Next (JNum 1)); (7, Next (JNum 3))].
Proof.
  assert (Forall2 (decodes parse) [DText "1"; DText "2"] [JNum 1; JNum 2]) as F
    by (repeat constructor).
  destruct (buffered_then_live parse stringify "ws://a" 7 _ _ "3" F) as [D _].
  split; [exact F|exact D].
Defined.
